(** * Shallow embedding of [examples/aws_cli.py]

    The demo command-line tool for AWS: six command handlers, each of which
    marshals the parsed arguments into a call of the forensics library and
    prints the result.  The handlers are embedded as functions in a small
    trace-and-exception monad; the library, the SDK behind it and the Python
    builtins that can fail ([int], [json.loads], [datetime.strptime]) are the
    fields of the class [External]. *)

From Stdlib Require Import Ascii String DecimalString.
From stdpp Require Import gmap strings list fin_maps.

(** ** Python strings and builtins *)

Module Py.

(** Truth value of a [str]: the empty string is false. *)
Definition bool_str (s : string) : bool :=
  match s with
  | EmptyString => false
  | String _ _ => true
  end.

(** Truth value of an attribute that is [None] or a [str]. *)
Definition truthy (o : option string) : bool :=
  match o with
  | None => false
  | Some s => bool_str s
  end.

(** The string held by an attribute of truth value [True]. *)
Definition str_of (o : option string) : string := default "" o.

(** Truth value of a list: the empty list is false. *)
Definition bool_list {A} (l : list A) : bool :=
  match l with
  | [] => false
  | _ :: _ => true
  end.

(** [all(x for x in l)] on a list of strings. *)
Definition all (l : list string) : bool := forallb bool_str l.

(** [len(s)]. *)
Definition len (s : string) : nat := String.length s.

(** [s.split(sep)] for a separator of one character: the fields between
    the separators, so [n] separators give [n + 1] fields and the empty
    string gives one empty field. *)
Fixpoint split (sep : ascii) (s : string) : list string :=
  match s with
  | EmptyString => [EmptyString]
  | String c s' =>
      if Ascii.eqb c sep then EmptyString :: split sep s'
      else match split sep s' with
           | [] => [String c EmptyString]
           | w :: ws => String c w :: ws
           end
  end.

(** [ord(c)] and [chr(n)].  [chr] is the builtin on the code points below
    256, which are the ones a [string] of this development holds. *)
Definition ord (c : ascii) : nat := nat_of_ascii c.
Definition chr (n : nat) : string := String (ascii_of_nat n) EmptyString.

(** ['{0:d}'.format(n)] for a length. *)
Definition format_d (n : nat) : string := NilZero.string_of_uint (Nat.to_uint n).

(** A [datetime] as [strptime] builds it from ['%Y-%m-%d %H:%M:%S']. *)
Record datetime := Datetime {
  year : nat; month : nat; day : nat;
  hour : nat; minute : nat; second : nat }.

(** The values [json.loads] returns; a float keeps its literal. *)
#[warnings="-register-all"] Inductive json :=
| JNull
| JBool (b : bool)
| JInt (z : Z)
| JFloat (literal : string)
| JStr (s : string)
| JList (l : list json)
| JDict (kv : list (string * json)).

End Py.

Import Py.

(** ** The argument namespace

    [args] as the handlers read it.  An optional flag that was not given is
    [None]; [zone], [instance_name], [disk_size] and [cpu_cores] always hold
    text. *)

Record Namespace := {
  zone : string;
  dst_zone : option string;
  instance_id : option string;
  volume_id : option string;
  src_profile : option string;
  dst_profile : option string;
  tags : option string;
  filter : option string;
  start : option string;
  end_ : option string;
  attach_volumes : option string;
  instance_name : string;
  disk_size : string;
  cpu_cores : string;
  ami : option string;
  ssh_key_name : option string }.

(** ** What a handler does: lines printed and library calls made *)

(** A value of the [params] dictionary of [QueryLogs]. *)
Inductive param :=
| PStr (s : string)
| PDatetime (d : datetime).

(** Keyword arguments of [forensics.CreateVolumeCopy]. *)
Record copy_kwargs := {
  copy_zone : string;
  copy_dst_zone : option string;
  copy_instance_id : option string;
  copy_volume_id : option string;
  copy_src_profile : option string;
  copy_dst_profile : option string;
  copy_tags : option json }.

(** Keyword arguments of [forensics.StartAnalysisVm]. *)
Record vm_kwargs := {
  vm_name : string;
  default_availability_zone : string;
  boot_volume_size : Z;
  vm_cpu_cores : Z;
  vm_ami : option string;
  vm_ssh_key_name : option string;
  vm_attach_volumes : list (string * string) }.

(** An entry of the [qfilter] list of [ListImages]. *)
Record ec2_filter := {
  filter_Name : string;
  filter_Values : list (option string) }.

Inductive event :=
| Print (line : string)
| CallAWSAccount (zone : string)
| CallListInstances
| CallListVolumes
| CallListImages (qfilter : list ec2_filter)
| CallGetBootVolume (instance : string)
| CallAWSCloudTrail
| CallLookupEvents (params : gmap string param)
| CallCreateVolumeCopy (kw : copy_kwargs)
| CallStartAnalysisVm (kw : vm_kwargs).

Definition trace := list event.

(** The lines a run printed, in order. *)
Definition printed (t : trace) : list string :=
  omap (fun e => match e with Print l => Some l | _ => None end) t.

Definition is_vm_start (e : event) : bool :=
  match e with CallStartAnalysisVm _ => true | _ => false end.

(** ** The library and the fallible builtins *)

Class External := {
  exn : Type;
  aws_account : Type;
  ec2_instance : Type;
  ebs_volume : Type;
  cloud_trail : Type;
  log_event : Type;
  vm_started : Type;
  (* builtins *)
  int : string -> exn + Z;
  json_loads : string -> exn + json;
  strptime : string -> string -> exn + datetime;
  KeyError : string -> exn;
  str_log_event : log_event -> string;
  str_vm_started : vm_started -> string;
  (* libcloudforensics.providers.aws.internal.account *)
  AWSAccount : string -> exn + aws_account;
  AWSAccount_ListInstances : aws_account -> exn + list (string * ec2_instance);
  AWSAccount_ListVolumes : aws_account -> exn + list (string * ebs_volume);
  AWSAccount_ListImages :
    aws_account -> list ec2_filter -> exn + list (gmap string string);
  GetBootVolume : ec2_instance -> exn + ebs_volume;
  ebs_volume_id : ebs_volume -> string;
  ebs_name : ebs_volume -> string;
  availability_zone : ebs_volume -> string;
  ec2_name : ec2_instance -> string;
  ec2_region : ec2_instance -> string;
  (* libcloudforensics.providers.aws.internal.log *)
  AWSCloudTrail : aws_account -> exn + cloud_trail;
  LookupEvents : cloud_trail -> gmap string param -> exn + list log_event;
  (* libcloudforensics.providers.aws.forensics *)
  forensics_CreateVolumeCopy : copy_kwargs -> exn + ebs_volume;
  forensics_StartAnalysisVm : vm_kwargs -> exn + (ec2_instance * vm_started) }.

(** ** The monad of the handlers: a trace and a result or an exception *)

Section Handlers.

Context {W : External}.

Definition M (A : Type) : Type := trace * (exn + A).

Definition ret {A} (a : A) : M A := ([], inr a).

Definition bind {A B} (m : M A) (f : A -> M B) : M B :=
  match m with
  | (t, inl e) => (t, inl e)
  | (t, inr a) => let '(t', r) := f a in (t ++ t', r)
  end.

(** [print(line)]. *)
Definition print (line : string) : M unit := ([Print line], inr tt).

(** A call of the library: the event, and what the library answered. *)
Definition call {A} (e : event) (answer : exn + A) : M A := ([e], answer).

(** A builtin that can raise: no event. *)
Definition builtin {A} (answer : exn + A) : M A := ([], answer).

Notation "x <- m ;; k" := (bind m (fun x => k))
  (at level 100, m at next level, right associativity).
Notation "m ;;; k" := (bind m (fun _ => k))
  (at level 100, right associativity).

(** [for x in l: body x]. *)
Fixpoint for_each {A} (l : list A) (body : A -> M unit) : M unit :=
  match l with
  | [] => ret tt
  | x :: l' => body x ;;; for_each l' body
  end.

(** The device loop of [StartAnalysisVm]: one [append] per volume, the
    letter going up by one. *)
Definition device_loop (volumes : list string) :
    list (string * string) * nat :=
  fold_left
    (fun '(attach_volumes, device_letter) volume =>
       let attach := (volume, "/dev/sd" +:+ chr device_letter) in
       (attach_volumes ++ [attach], device_letter + 1))
    volumes ([], ord "f").

Definition StartAnalysisVm (args : Namespace) : M unit :=
  if truthy (attach_volumes args)
     && (11 <? len (str_of (attach_volumes args)))
  then print "error: --attach_volumes must be < 11"
  else
    checked <-
      (if truthy (attach_volumes args) then
         let volumes := split "," (str_of (attach_volumes args)) in
         if negb (bool_list volumes && all volumes) then
           print ("error: parameter --attach_volumes: "
                  +:+ str_of (attach_volumes args)) ;;;
           ret None
         else ret (Some (fst (device_loop volumes)))
       else ret (Some [])) ;;
    match checked with
    | None => ret tt
    | Some attach_volumes =>
        print "Starting analysis VM..." ;;;
        size <- builtin (int (disk_size args)) ;;
        cores <- builtin (int (cpu_cores args)) ;;
        let kw := {| vm_name := instance_name args;
                     default_availability_zone := zone args;
                     boot_volume_size := size;
                     vm_cpu_cores := cores;
                     vm_ami := ami args;
                     vm_ssh_key_name := ssh_key_name args;
                     vm_attach_volumes := attach_volumes |} in
        vm <- call (CallStartAnalysisVm kw) (forensics_StartAnalysisVm kw) ;;
        print "Analysis VM started." ;;;
        print ("Name: " +:+ ec2_name (fst vm)
               +:+ ", Started: " +:+ str_vm_started (snd vm)
               +:+ ", Region: " +:+ ec2_region (fst vm))
    end.

(** [d[key]] on a dictionary of strings. *)
Definition getitem (d : gmap string string) (key : string) : M string :=
  builtin (match d !! key with
           | Some v => inr v
           | None => inl (KeyError key)
           end).

Definition ListInstances (args : Namespace) : M unit :=
  aws_account <- call (CallAWSAccount (zone args)) (AWSAccount (zone args)) ;;
  instances <- call CallListInstances (AWSAccount_ListInstances aws_account) ;;
  print "Instances found:" ;;;
  for_each instances (fun '(instance, obj) =>
    boot <- call (CallGetBootVolume instance) (GetBootVolume obj) ;;
    let boot_volume := ebs_volume_id boot in
    print ("Name: " +:+ instance +:+ ", Boot volume: " +:+ boot_volume)).

Definition ListVolumes (args : Namespace) : M unit :=
  aws_account <- call (CallAWSAccount (zone args)) (AWSAccount (zone args)) ;;
  volumes <- call CallListVolumes (AWSAccount_ListVolumes aws_account) ;;
  print "Volumes found:" ;;;
  for_each volumes (fun '(volume, obj) =>
    print ("Name: " +:+ volume +:+ ", Zone: " +:+ availability_zone obj)).

Definition CreateVolumeCopy (args : Namespace) : M unit :=
  print "Starting volume copy..." ;;;
  tags <-
    (if truthy (tags args) then
       parsed <- builtin (json_loads (str_of (tags args))) ;;
       ret (Some parsed)
     else ret None) ;;
  let kw := {| copy_zone := zone args;
               copy_dst_zone := dst_zone args;
               copy_instance_id := instance_id args;
               copy_volume_id := volume_id args;
               copy_src_profile := src_profile args;
               copy_dst_profile := dst_profile args;
               copy_tags := tags |} in
  volume_copy <- call (CallCreateVolumeCopy kw) (forensics_CreateVolumeCopy kw) ;;
  print ("Done! Volume " +:+ ebs_volume_id volume_copy
         +:+ " successfully created. You will find it in "
         +:+ "your AWS account under the name "
         +:+ ebs_name volume_copy +:+ ".").

(** The format both timestamps of [QueryLogs] are parsed with. *)
Definition timestamp_format : string := "%Y-%m-%d %H:%M:%S".

Definition QueryLogs (args : Namespace) : M unit :=
  aws_account <- call (CallAWSAccount (zone args)) (AWSAccount (zone args)) ;;
  ct <- call CallAWSCloudTrail (AWSCloudTrail aws_account) ;;
  let params : gmap string param := ∅ in
  let params :=
    if truthy (filter args)
    then <["qfilter" := PStr (str_of (filter args))]> params
    else params in
  params <-
    (if truthy (start args) then
       t <- builtin (strptime (str_of (start args)) timestamp_format) ;;
       ret (<["starttime" := PDatetime t]> params)
     else ret params) ;;
  params <-
    (if truthy (end_ args) then
       t <- builtin (strptime (str_of (end_ args)) timestamp_format) ;;
       ret (<["endtime" := PDatetime t]> params)
     else ret params) ;;
  result <- call (CallLookupEvents params) (LookupEvents ct params) ;;
  if bool_list result then
    print ("Log events found: " +:+ format_d (length result)) ;;;
    for_each result (fun event => print (str_log_event event))
  else ret tt.

Definition ListImages (args : Namespace) : M unit :=
  aws_account <- call (CallAWSAccount (zone args)) (AWSAccount (zone args)) ;;
  let qfilter := [ {| filter_Name := "name";
                      filter_Values := [filter args] |} ] in
  images <- call (CallListImages qfilter)
                 (AWSAccount_ListImages aws_account qfilter) ;;
  for_each images (fun image =>
    name <- getitem image "Name" ;;
    image_id <- getitem image "ImageId" ;;
    location <- getitem image "ImageLocation" ;;
    print ("Name: " +:+ name +:+ ", ImageId: " +:+ image_id
           +:+ ", Location: " +:+ location)).

End Handlers.

(** ** Vocabulary of the properties *)

(** The device name of the letter with code [n]. *)
Definition device (n : nat) : string := "/dev/sd" +:+ chr n.

(** A device name within [/dev/sd[f-p]]. *)
Definition sd_f_to_p (dev : string) : Prop :=
  ∃ c : ascii, dev = "/dev/sd" +:+ String c "" ∧ ord "f" ≤ ord c ≤ ord "p".

(** A run that reported an input error: it printed one line, an error
    message, and returned; it called nothing. *)
Definition rejected `{W : External} (run : M unit) : Prop :=
  ∃ msg, run = ([Print ("error: " +:+ msg)], inr tt).

(** No line of the run is an error message. *)
Definition no_error_printed (t : trace) : Prop :=
  ∀ line, line ∈ printed t → String.prefix "error:" line = false.

(** The parameter sets [LookupEvents] was called with, in order. *)
Definition lookups (t : trace) : list (gmap string param) :=
  omap (fun e => match e with CallLookupEvents p => Some p | _ => None end) t.

(** The keyword arguments [forensics.CreateVolumeCopy] was called with. *)
Definition copies (t : trace) : list copy_kwargs :=
  omap (fun e => match e with CallCreateVolumeCopy kw => Some kw | _ => None end) t.

(** A run that printed one line, its header, and no other. *)
Definition prints_only_header `{W : External} (run : M unit) : Prop :=
  ∃ header, printed run.1 = [header].

(** What [StartAnalysisVm] does once [attach_volumes] is built. *)
Definition launch `{W : External} (args : Namespace)
    (attach_volumes : list (string * string)) : M unit :=
  bind (print "Starting analysis VM...") (fun _ =>
  bind (builtin (int (disk_size args))) (fun size =>
  bind (builtin (int (cpu_cores args))) (fun cores =>
  let kw := {| vm_name := instance_name args;
               default_availability_zone := zone args;
               boot_volume_size := size;
               vm_cpu_cores := cores;
               vm_ami := ami args;
               vm_ssh_key_name := ssh_key_name args;
               vm_attach_volumes := attach_volumes |} in
  bind (call (CallStartAnalysisVm kw) (forensics_StartAnalysisVm kw)) (fun vm =>
  bind (print "Analysis VM started.") (fun _ =>
  print ("Name: " +:+ ec2_name (fst vm)
         +:+ ", Started: " +:+ str_vm_started (snd vm)
         +:+ ", Region: " +:+ ec2_region (fst vm))))))).

(** ** A concrete library, for running the handlers

    An account without instances, volumes, images or log events, whose
    forensics operations succeed; exceptions are their messages. *)

Module Demo.

Definition num (s : string) : option nat :=
  match s with
  | EmptyString => None
  | _ => option_map Nat.of_uint (NilZero.uint_of_string s)
  end.

Definition parse_int (s : string) : string + Z :=
  match s with
  | EmptyString => inl "ValueError"
  | _ => match NilZero.int_of_string s with
         | Some i => inr (Z.of_int i)
         | None => inl "ValueError"
         end
  end.

(** Timestamps of the shape [YYYY-MM-DD HH:MM:SS], two digits a field. *)
Definition parse_time (s fmt : string) : string + datetime :=
  match num (substring 0 4 s), num (substring 5 2 s), num (substring 8 2 s),
        num (substring 11 2 s), num (substring 14 2 s), num (substring 17 2 s)
  with
  | Some y, Some m, Some d, Some hh, Some mm, Some ss =>
      if (String.length s =? 19) && String.eqb (substring 4 1 s) "-"
         && String.eqb (substring 7 1 s) "-" && String.eqb (substring 10 1 s) " "
         && String.eqb (substring 13 1 s) ":" && String.eqb (substring 16 1 s) ":"
         && (1 <=? m) && (m <=? 12) && (1 <=? d) && (d <=? 31)
         && (hh <? 24) && (mm <? 60) && (ss <? 60)
      then inr (Datetime y m d hh mm ss)
      else inl "ValueError"
  | _, _, _, _, _, _ => inl "ValueError"
  end.

(** The text [{"case": "42"}]. *)
Definition case_tag : string :=
  let q := String (ascii_of_nat 34) "" in
  "{" +:+ q +:+ "case" +:+ q +:+ ": " +:+ q +:+ "42" +:+ q +:+ "}".

Definition parse_json (s : string) : string + json :=
  if String.eqb s "{}" then inr (JDict [])
  else if String.eqb s case_tag then inr (JDict [("case", JStr "42")])
  else inl "JSONDecodeError".

Definition world : External := {|
  exn := string;
  aws_account := string;
  ec2_instance := string * string;
  ebs_volume := string * string * string;
  cloud_trail := string;
  log_event := string;
  vm_started := bool;
  int := parse_int;
  json_loads := parse_json;
  strptime := parse_time;
  KeyError := fun key => "KeyError: " +:+ key;
  str_log_event := fun e => e;
  str_vm_started := fun b => if b then "True" else "False";
  AWSAccount := fun zone => inr zone;
  AWSAccount_ListInstances := fun _ => inr [];
  AWSAccount_ListVolumes := fun _ => inr [];
  AWSAccount_ListImages := fun _ _ => inr [];
  GetBootVolume := fun i => inr ("vol-0", "boot", i.2);
  ebs_volume_id := fun v => v.1.1;
  ebs_name := fun v => v.1.2;
  availability_zone := fun v => v.2;
  ec2_name := fun i => i.1;
  ec2_region := fun i => i.2;
  AWSCloudTrail := fun a => inr a;
  LookupEvents := fun _ _ => inr [];
  forensics_CreateVolumeCopy := fun kw => inr ("vol-1", "evidence-copy", copy_zone kw);
  forensics_StartAnalysisVm :=
    fun kw => inr ((vm_name kw, default_availability_zone kw), true) |}.

(** The arguments of a run in which only the given flags are set. *)
Definition args (given_tags given_filter given_start given_end
    given_volumes : option string) : Namespace := {|
  zone := "us-east-1";
  dst_zone := None;
  instance_id := None;
  volume_id := Some "vol-0";
  src_profile := None;
  dst_profile := None;
  tags := given_tags;
  filter := given_filter;
  start := given_start;
  end_ := given_end;
  attach_volumes := given_volumes;
  instance_name := "analysis-vm";
  disk_size := "50";
  cpu_cores := "4";
  ami := None;
  ssh_key_name := None |}.

End Demo.

(** [args] with another [--attach_volumes]. *)
Definition with_attach_volumes (v : option string) (args : Namespace) :
    Namespace := {|
  zone := zone args;
  dst_zone := dst_zone args;
  instance_id := instance_id args;
  volume_id := volume_id args;
  src_profile := src_profile args;
  dst_profile := dst_profile args;
  tags := tags args;
  filter := filter args;
  start := start args;
  end_ := end_ args;
  attach_volumes := v;
  instance_name := instance_name args;
  disk_size := disk_size args;
  cpu_cores := cpu_cores args;
  ami := ami args;
  ssh_key_name := ssh_key_name args |}.

(** ** Vocabulary of the further properties *)

(** [sep.join(l)]. *)
Fixpoint str_join (sep : string) (l : list string) : string :=
  match l with
  | [] => ""
  | [w] => w
  | w :: ws => w +:+ sep +:+ str_join sep ws
  end.

(** [c in s]. *)
Fixpoint contains (c : ascii) (s : string) : bool :=
  match s with
  | EmptyString => false
  | String c' s' => Ascii.eqb c' c || contains c s'
  end.

(** The keyword arguments [forensics.StartAnalysisVm] was called with. *)
Definition vm_starts (t : trace) : list vm_kwargs :=
  omap (fun e => match e with CallStartAnalysisVm kw => Some kw | _ => None end) t.

(** A call of the forensics module, the one that changes the account. *)
Definition is_forensics (e : event) : bool :=
  match e with
  | CallCreateVolumeCopy _ | CallStartAnalysisVm _ => true
  | _ => false
  end.

(** The line [ListVolumes] prints for a volume. *)
Definition volume_line `{W : External} (entry : string * ebs_volume) : string :=
  "Name: " +:+ entry.1 +:+ ", Zone: " +:+ availability_zone entry.2.

(** The line [ListInstances] prints for an instance with boot volume
    [boot]. *)
Definition instance_line `{W : External} (entry : string * ec2_instance)
    (boot : ebs_volume) : string :=
  "Name: " +:+ entry.1 +:+ ", Boot volume: " +:+ ebs_volume_id boot.

(** The line [ListImages] prints for an image that has the three keys. *)
Definition image_line (image : gmap string string) : string :=
  "Name: " +:+ image !!! "Name" +:+ ", ImageId: " +:+ image !!! "ImageId"
  +:+ ", Location: " +:+ image !!! "ImageLocation".

(** The first key [ListImages] reads that [image] does not have. *)
Definition first_missing_key (image : gmap string string) : option string :=
  match image !! "Name" with
  | None => Some "Name"
  | Some _ =>
      match image !! "ImageId" with
      | None => Some "ImageId"
      | Some _ =>
          match image !! "ImageLocation" with
          | None => Some "ImageLocation"
          | Some _ => None
          end
      end
  end.

(** The lines [QueryLogs] prints for the events it got. *)
Definition report_lines `{W : External} (result : list log_event) : list string :=
  match result with
  | [] => []
  | _ :: _ =>
      ("Log events found: " +:+ format_d (length result))
      :: map str_log_event result
  end.

(** ** A second concrete library

    An account with instances, volumes, images and log events in
    [us-east-1]; in [eu-west-1] one instance has no boot volume, one image
    no [ImageId], and the forensics operations fail; any other zone is
    denied, and the empty zone is no zone. *)

Module Sample.

Definition instance (name : string) : string * string := (name, "us-east-1").

Definition image (name id location : string) : gmap string string :=
  {[ "Name" := name; "ImageId" := id; "ImageLocation" := location ]}.

Definition world : External := {|
  exn := string;
  aws_account := string;
  ec2_instance := string * string;
  ebs_volume := string * string * string;
  cloud_trail := string;
  log_event := string;
  vm_started := bool;
  int := Demo.parse_int;
  json_loads := Demo.parse_json;
  strptime := Demo.parse_time;
  KeyError := fun key => "KeyError: " +:+ key;
  str_log_event := fun e => e;
  str_vm_started := fun b => if b then "True" else "False";
  AWSAccount := fun z => if String.eqb z "" then inl "NoRegionError" else inr z;
  AWSAccount_ListInstances := fun a =>
    if String.eqb a "us-east-1" then
      inr [("i-1", instance "i-1"); ("i-2", instance "i-2")]
    else if String.eqb a "eu-west-1" then
      inr [("i-1", instance "i-1"); ("i-broken", instance "i-broken");
           ("i-3", instance "i-3")]
    else inl "AccessDenied";
  AWSAccount_ListVolumes := fun a =>
    if String.eqb a "us-east-1" then
      inr [("vol-a", ("vol-a", "a", "us-east-1a"));
           ("vol-b", ("vol-b", "b", "us-east-1b"))]
    else inl "AccessDenied";
  AWSAccount_ListImages := fun a _ =>
    if String.eqb a "us-east-1" then
      inr [image "debian" "ami-1" "aws/debian"; image "ubuntu" "ami-2" "aws/ubuntu"]
    else if String.eqb a "eu-west-1" then
      inr [image "debian" "ami-1" "aws/debian";
           {[ "Name" := "nameless"; "ImageLocation" := "aws/nowhere" ]};
           image "ubuntu" "ami-2" "aws/ubuntu"]
    else inl "AccessDenied";
  GetBootVolume := fun i =>
    if String.eqb i.1 "i-broken" then inl "RuntimeError"
    else inr ("vol-" +:+ i.1, "boot", i.2);
  ebs_volume_id := fun v => v.1.1;
  ebs_name := fun v => v.1.2;
  availability_zone := fun v => v.2;
  ec2_name := fun i => i.1;
  ec2_region := fun i => i.2;
  AWSCloudTrail := fun a => inr a;
  LookupEvents := fun ct _ =>
    if String.eqb ct "us-east-1" then inr ["event-1"; "event-2"] else inr [];
  forensics_CreateVolumeCopy := fun kw =>
    if String.eqb (copy_zone kw) "eu-west-1" then inl "RuntimeError"
    else inr ("vol-1", "evidence-copy", copy_zone kw);
  forensics_StartAnalysisVm := fun kw =>
    if String.eqb (default_availability_zone kw) "eu-west-1" then inl "RuntimeError"
    else inr ((vm_name kw, default_availability_zone kw), true) |}.

(** The arguments of a run in [given_zone] with the given flags. *)
Definition args (given_zone given_size : string)
    (given_tags given_filter given_start given_end given_volumes : option string) :
    Namespace := {|
  zone := given_zone;
  dst_zone := None;
  instance_id := None;
  volume_id := Some "vol-0";
  src_profile := None;
  dst_profile := None;
  tags := given_tags;
  filter := given_filter;
  start := given_start;
  end_ := given_end;
  attach_volumes := given_volumes;
  instance_name := "analysis-vm";
  disk_size := given_size;
  cpu_cores := "4";
  ami := None;
  ssh_key_name := None |}.

End Sample.

(** * Properties *)

(** ** Strings: [split] and the length check *)

Section Split.

Variable sep : ascii.

Lemma split_not_nil (s : string) : split sep s ≠ [].
Proof.
  destruct s as [|c s]; simpl; [done|].
  destruct (Ascii.eqb c sep); [done|].
  by destruct (split sep s).
Qed.

(** The characters of [s] are those of its fields plus one separator
    between two neighbours. *)
Lemma split_len (s : string) :
  sum_list (map (fun w => S (len w)) (split sep s)) = S (len s).
Proof.
  induction s as [|c s IH]; simpl; [done|].
  destruct (Ascii.eqb c sep); simpl.
  - by rewrite IH.
  - destruct (split sep s) as [|w ws] eqn:E.
    + by destruct (split_not_nil s).
    + simpl in *. unfold len in *. simpl. lia.
Qed.

Lemma split_empty_field (s : string) :
  "" ∈ split sep s → all (split sep s) = false.
Proof.
  intros Hin. unfold all.
  destruct (forallb bool_str (split sep s)) eqn:E; [|done].
  rewrite forallb_forall in E.
  apply list_elem_of_In, E in Hin. done.
Qed.

End Split.

(** Fields that are all non-empty take two characters each, separator
    included. *)
Lemma all_len (l : list string) :
  all l = true → 2 * length l ≤ sum_list (map (fun w => S (len w)) l).
Proof.
  induction l as [|w l IH]; simpl; [lia|].
  intros [Hw Hl]%andb_prop. specialize (IH Hl).
  destruct w; [done|]. unfold len in *. simpl. lia.
Qed.

(** A string of at most eleven characters has at most six non-empty
    fields. *)
Lemma split_all_count (sep : ascii) (s : string) :
  all (split sep s) = true → 2 * length (split sep s) ≤ S (len s).
Proof. intros H. rewrite <- (split_len sep s). by apply all_len. Qed.

(** ** The device loop *)

Lemma device_loop_from (volumes : list string) acc n :
  fold_left
    (fun '(attach_volumes, device_letter) volume =>
       (attach_volumes ++ [(volume, "/dev/sd" +:+ chr device_letter)],
        device_letter + 1))
    volumes (acc, n)
  = (acc ++ zip volumes (map device (seq n (length volumes))),
     n + length volumes).
Proof.
  revert acc n. induction volumes as [|v vs IH]; intros acc n; simpl.
  - by rewrite app_nil_r, Nat.add_0_r.
  - rewrite IH. rewrite <- app_assoc. simpl.
    replace (n + 1) with (S n) by lia. f_equal. lia.
Qed.

(** The loop pairs the volumes, in order, with the names of the letters
    from [f] on. *)
Lemma device_loop_zip (volumes : list string) :
  (device_loop volumes).1
  = zip volumes (map device (seq (ord "f") (length volumes))).
Proof. unfold device_loop. by rewrite device_loop_from. Qed.

(** ** [StartAnalysisVm]: the three ways through the validation *)

Section StartAnalysisVm_paths.

Context `{W : External}.
Variable args : Namespace.

Let given := attach_volumes args.

Lemma StartAnalysisVm_too_long :
  truthy given = true → 11 < len (str_of given) →
  StartAnalysisVm args = ([Print "error: --attach_volumes must be < 11"], inr tt).
Proof.
  intros Ht Hlen. unfold StartAnalysisVm. fold given. rewrite Ht.
  apply Nat.ltb_lt in Hlen as ->. done.
Qed.

Lemma StartAnalysisVm_empty_field :
  truthy given = true → len (str_of given) ≤ 11 →
  all (split "," (str_of given)) = false →
  StartAnalysisVm args
  = ([Print ("error: parameter --attach_volumes: " +:+ str_of given)], inr tt).
Proof.
  intros Ht Hlen Hall. unfold StartAnalysisVm. fold given. rewrite Ht.
  apply Nat.ltb_ge in Hlen as ->. simpl.
  rewrite Hall, andb_false_r. done.
Qed.

Lemma StartAnalysisVm_accepted :
  truthy given = true → len (str_of given) ≤ 11 →
  all (split "," (str_of given)) = true →
  StartAnalysisVm args = launch args (device_loop (split "," (str_of given))).1.
Proof.
  intros Ht Hlen Hall. unfold StartAnalysisVm. fold given. rewrite Ht.
  apply Nat.ltb_ge in Hlen as ->. simpl.
  rewrite Hall.
  destruct (split "," (str_of given)) eqn:E.
  { by destruct (split_not_nil "," (str_of given)). }
  simpl. unfold launch. simpl.
  destruct (int (disk_size args)); [done|]. simpl.
  destruct (int (cpu_cores args)); [done|]. simpl.
  by destruct (forensics_StartAnalysisVm _).
Qed.

Lemma StartAnalysisVm_not_given :
  truthy given = false → StartAnalysisVm args = launch args [].
Proof.
  intros Ht. unfold StartAnalysisVm. fold given. rewrite Ht. simpl.
  unfold launch. simpl.
  destruct (int (disk_size args)); [done|]. simpl.
  destruct (int (cpu_cores args)); [done|]. simpl.
  by destruct (forensics_StartAnalysisVm _).
Qed.

(** Every run is one of the four. *)
Lemma StartAnalysisVm_cases :
  rejected (StartAnalysisVm args)
  ∨ (truthy given = false ∧ StartAnalysisVm args = launch args [])
  ∨ (truthy given = true ∧ len (str_of given) ≤ 11
     ∧ all (split "," (str_of given)) = true
     ∧ StartAnalysisVm args
       = launch args (device_loop (split "," (str_of given))).1).
Proof.
  destruct (truthy given) eqn:Ht.
  - destruct (decide (11 < len (str_of given))) as [Hlen|Hlen].
    + left. eexists. rewrite StartAnalysisVm_too_long by done. done.
    + apply Nat.nlt_ge in Hlen.
      destruct (all (split "," (str_of given))) eqn:Hall.
      * right. right. auto using StartAnalysisVm_accepted.
      * left. eexists. rewrite StartAnalysisVm_empty_field by done. done.
  - right. left. auto using StartAnalysisVm_not_given.
Qed.

End StartAnalysisVm_paths.

(** ** [StartAnalysisVm]: what is forwarded *)

Section StartAnalysisVm_launch.

Context `{W : External}.
Variable args : Namespace.

(** With both sizes integers, the library is called once, right after
    the first line. *)
Lemma launch_trace (l : list (string * string)) (size cores : Z) :
  int (disk_size args) = inr size → int (cpu_cores args) = inr cores →
  let kw := {| vm_name := instance_name args;
               default_availability_zone := zone args;
               boot_volume_size := size;
               vm_cpu_cores := cores;
               vm_ami := ami args;
               vm_ssh_key_name := ssh_key_name args;
               vm_attach_volumes := l |} in
  (launch args l).1
  = [Print "Starting analysis VM..."; CallStartAnalysisVm kw]
    ++ match forensics_StartAnalysisVm kw with
       | inl _ => []
       | inr vm =>
           [Print "Analysis VM started.";
            Print ("Name: " +:+ ec2_name vm.1
                   +:+ ", Started: " +:+ str_vm_started vm.2
                   +:+ ", Region: " +:+ ec2_region vm.1)]
       end.
Proof.
  intros Hsize Hcores kw. unfold launch. simpl.
  rewrite Hsize. simpl. rewrite Hcores. simpl. subst kw.
  by destruct (forensics_StartAnalysisVm _).
Qed.

(** Whatever the library is called with, its attachments are the list
    that was built. *)
Lemma launch_call (l : list (string * string)) (kw : vm_kwargs) :
  CallStartAnalysisVm kw ∈ (launch args l).1 → vm_attach_volumes kw = l.
Proof.
  unfold launch. simpl.
  destruct (int (disk_size args)) as [e|size]; simpl.
  { intros [=]%list_elem_of_singleton. }
  destruct (int (cpu_cores args)) as [e|cores]; simpl.
  { intros [=]%list_elem_of_singleton. }
  destruct (forensics_StartAnalysisVm _) as [e|vm]; simpl;
    rewrite ?elem_of_cons, ?elem_of_nil; intros H;
    repeat destruct H as [H|H]; try done; by injection H as ->.
Qed.

End StartAnalysisVm_launch.

(** The names the loop gives to at most eleven volumes are within
    [/dev/sd[f-p]]. *)
Lemma device_loop_range (volumes : list string) (volume dev : string) :
  length volumes ≤ 11 →
  (volume, dev) ∈ (device_loop volumes).1 → sd_f_to_p dev.
Proof.
  intros Hn. rewrite device_loop_zip.
  intros Hin%elem_of_zip_r.
  apply list_elem_of_fmap in Hin as (n & -> & Hseq).
  apply elem_of_seq in Hseq. change (ord "f") with 102 in Hseq.
  assert (Hcases : n ∈ seq 102 11) by (apply elem_of_seq; lia).
  clear -Hcases. unfold sd_f_to_p, device, chr.
  vm_compute in Hcases.
  repeat (apply elem_of_cons in Hcases as [->|Hcases];
          [eexists; split; [reflexivity|vm_compute; lia]|]).
  by apply elem_of_nil in Hcases.
Qed.

(** No two of them get the same name. *)
Lemma device_loop_distinct (volumes : list string) :
  length volumes ≤ 11 → NoDup (device_loop volumes).1.*2.
Proof.
  intros Hn.
  rewrite device_loop_zip, snd_zip by (rewrite length_map, length_seq; lia).
  apply NoDup_fmap_2_strong; [|apply NoDup_seq].
  intros a b Ha%elem_of_seq Hb%elem_of_seq. change (ord "f") with 102 in *.
  unfold device, chr. simpl. intros [= H].
  apply (f_equal nat_of_ascii) in H.
  rewrite !nat_ascii_embedding in H by lia. done.
Qed.

Lemma rejected_no_call `{W : External} (run : M unit) :
  rejected run → existsb is_vm_start run.1 = false.
Proof. by intros [msg ->]. Qed.

(** ** The claims about [StartAnalysisVm] *)

(** C1 — one to ten non-empty entries are accepted and forwarded with the
    devices [/dev/sdf], [/dev/sdg], ...  The handler compares the number of
    characters of the argument with 11, not the number of its entries: the
    five entries of [v1,v2,v3,v4,v5], all non-empty, make fourteen
    characters, and the run prints the error of the first check and calls
    nothing. *)
Theorem StartAnalysisVm_five_volumes_rejected `{W : External} (args : Namespace) :
  let given := "v1,v2,v3,v4,v5" in
  length (split "," given) = 5
  ∧ all (split "," given) = true
  ∧ StartAnalysisVm (with_attach_volumes (Some given) args)
    = ([Print "error: --attach_volumes must be < 11"], inr tt).
Proof. repeat split. Qed.

(** C3 — an argument of eleven or more comma-separated entries: the run
    prints an error message and returns, and the library is not called. *)
Theorem StartAnalysisVm_eleven_entries_rejected `{W : External}
    (args : Namespace) (s : string) :
  attach_volumes args = Some s →
  11 ≤ length (split "," s) →
  rejected (StartAnalysisVm args)
  ∧ existsb is_vm_start (StartAnalysisVm args).1 = false.
Proof.
  intros Hs Hn.
  assert (Hrej : rejected (StartAnalysisVm args)); [|by auto using rejected_no_call].
  destruct (StartAnalysisVm_cases args) as [H|[[Ht _]|(_ & Hlen & Hall & _)]];
    [done|exfalso..]; rewrite Hs in *; simpl in *.
  - destruct s; [simpl in Hn; lia|done].
  - apply split_all_count in Hall. lia.
Qed.

Lemma StartAnalysisVm_eleven_entries_rejected_witness :
  let args := Demo.args None None None None (Some "1,2,3,4,5,6,7,8,9,10,11") in
  rejected (@StartAnalysisVm Demo.world args)
  ∧ existsb is_vm_start (@StartAnalysisVm Demo.world args).1 = false.
Proof.
  apply (@StartAnalysisVm_eleven_entries_rejected Demo.world _
           "1,2,3,4,5,6,7,8,9,10,11"); [reflexivity|vm_compute; lia].
Defined.

(** C4 — a given argument with an empty entry, as in [vol-1,,vol-2]: the
    run prints an error message and returns, and the library is not
    called.  (The empty string is the argument not given.) *)
Theorem StartAnalysisVm_empty_entry_rejected `{W : External}
    (args : Namespace) (s : string) :
  attach_volumes args = Some s → s ≠ "" →
  "" ∈ split "," s →
  rejected (StartAnalysisVm args)
  ∧ existsb is_vm_start (StartAnalysisVm args).1 = false.
Proof.
  intros Hs Hne Hin.
  assert (Hrej : rejected (StartAnalysisVm args)); [|by auto using rejected_no_call].
  destruct (StartAnalysisVm_cases args) as [H|[[Ht _]|(_ & _ & Hall & _)]];
    [done|exfalso..]; rewrite Hs in *; simpl in *.
  - by destruct s.
  - by rewrite split_empty_field in Hall.
Qed.

Lemma StartAnalysisVm_empty_entry_rejected_witness :
  let args := Demo.args None None None None (Some "v1,,v2") in
  rejected (@StartAnalysisVm Demo.world args)
  ∧ existsb is_vm_start (@StartAnalysisVm Demo.world args).1 = false.
Proof.
  apply (@StartAnalysisVm_empty_entry_rejected Demo.world _ "v1,,v2");
    [reflexivity|discriminate|].
  vm_compute. apply list_elem_of_further, list_elem_of_here.
Defined.

(** C5 — with [--attach_volumes v1,v2,v3] (and sizes that are integers) the
    library is called with the pairs [(v1, /dev/sdf)], [(v2, /dev/sdg)],
    [(v3, /dev/sdh)]. *)
Theorem StartAnalysisVm_v1_v2_v3 `{W : External} (args : Namespace)
    (size cores : Z) :
  attach_volumes args = Some "v1,v2,v3" →
  int (disk_size args) = inr size → int (cpu_cores args) = inr cores →
  ∃ after,
    (StartAnalysisVm args).1
    = Print "Starting analysis VM..."
      :: CallStartAnalysisVm
           {| vm_name := instance_name args;
              default_availability_zone := zone args;
              boot_volume_size := size;
              vm_cpu_cores := cores;
              vm_ami := ami args;
              vm_ssh_key_name := ssh_key_name args;
              vm_attach_volumes :=
                [("v1", "/dev/sdf"); ("v2", "/dev/sdg"); ("v3", "/dev/sdh")] |}
      :: after.
Proof.
  intros Hs Hsize Hcores.
  rewrite StartAnalysisVm_accepted by (rewrite Hs; vm_compute; done || lia).
  rewrite Hs. erewrite launch_trace by done. eexists. reflexivity.
Qed.

Lemma StartAnalysisVm_v1_v2_v3_witness :
  let args := Demo.args None None None None (Some "v1,v2,v3") in
  ∃ after,
    (@StartAnalysisVm Demo.world args).1
    = Print "Starting analysis VM..."
      :: CallStartAnalysisVm
           {| vm_name := "analysis-vm";
              default_availability_zone := "us-east-1";
              boot_volume_size := 50;
              vm_cpu_cores := 4;
              vm_ami := None;
              vm_ssh_key_name := None;
              vm_attach_volumes :=
                [("v1", "/dev/sdf"); ("v2", "/dev/sdg"); ("v3", "/dev/sdh")] |}
      :: after.
Proof.
  apply (@StartAnalysisVm_v1_v2_v3 Demo.world
           (Demo.args None None None None (Some "v1,v2,v3")) 50 4);
    reflexivity.
Defined.

(** C6 — every pair the library is called with has a device name from
    [/dev/sdf] to [/dev/sdp]. *)
Theorem StartAnalysisVm_devices_in_range `{W : External} (args : Namespace)
    (kw : vm_kwargs) (volume dev : string) :
  CallStartAnalysisVm kw ∈ (StartAnalysisVm args).1 →
  (volume, dev) ∈ vm_attach_volumes kw →
  sd_f_to_p dev.
Proof.
  intros Hcall Hin.
  destruct (StartAnalysisVm_cases args)
    as [[msg Hrej]|[[_ Hrun]|(_ & Hlen & Hall & Hrun)]]; rewrite ?Hrun in Hcall.
  - rewrite Hrej in Hcall. by apply list_elem_of_singleton in Hcall.
  - apply launch_call in Hcall. rewrite Hcall in Hin. by apply elem_of_nil in Hin.
  - apply launch_call in Hcall. rewrite Hcall in Hin.
    apply split_all_count in Hall.
    eapply device_loop_range; [|done]. lia.
Qed.

Lemma StartAnalysisVm_devices_in_range_witness : sd_f_to_p "/dev/sdg".
Proof.
  apply (@StartAnalysisVm_devices_in_range Demo.world
           (Demo.args None None None None (Some "v1,v2,v3"))
           {| vm_name := "analysis-vm";
              default_availability_zone := "us-east-1";
              boot_volume_size := 50;
              vm_cpu_cores := 4;
              vm_ami := None;
              vm_ssh_key_name := None;
              vm_attach_volumes :=
                [("v1", "/dev/sdf"); ("v2", "/dev/sdg"); ("v3", "/dev/sdh")] |}
           "v2" "/dev/sdg").
  - vm_compute. apply list_elem_of_further, list_elem_of_here.
  - simpl. apply list_elem_of_further, list_elem_of_here.
Defined.

(** C10 — [--attach_volumes] not given, or given empty: no error is
    printed, and (the sizes being integers) the library is called with an
    empty attachment list and the other arguments as they were given. *)
Theorem StartAnalysisVm_no_volumes `{W : External} (args : Namespace)
    (size cores : Z) :
  attach_volumes args = None ∨ attach_volumes args = Some "" →
  int (disk_size args) = inr size → int (cpu_cores args) = inr cores →
  let kw := {| vm_name := instance_name args;
               default_availability_zone := zone args;
               boot_volume_size := size;
               vm_cpu_cores := cores;
               vm_ami := ami args;
               vm_ssh_key_name := ssh_key_name args;
               vm_attach_volumes := [] |} in
  (StartAnalysisVm args).1
  = [Print "Starting analysis VM..."; CallStartAnalysisVm kw]
    ++ match forensics_StartAnalysisVm kw with
       | inl _ => []
       | inr vm =>
           [Print "Analysis VM started.";
            Print ("Name: " +:+ ec2_name vm.1
                   +:+ ", Started: " +:+ str_vm_started vm.2
                   +:+ ", Region: " +:+ ec2_region vm.1)]
       end
  ∧ no_error_printed (StartAnalysisVm args).1.
Proof.
  intros Hgiven Hsize Hcores kw.
  assert (Hrun : StartAnalysisVm args = launch args []).
  { apply StartAnalysisVm_not_given. by destruct Hgiven as [->| ->]. }
  rewrite Hrun, (launch_trace args [] size cores) by done. fold kw.
  split; [done|]. intros line.
  destruct (forensics_StartAnalysisVm kw); simpl;
    rewrite ?elem_of_cons, ?elem_of_nil; intros H;
    repeat destruct H as [H|H]; by subst.
Qed.

Lemma StartAnalysisVm_no_volumes_witness :
  let args := Demo.args None None None None (Some "") in
  (@StartAnalysisVm Demo.world args).1
  = [Print "Starting analysis VM...";
     CallStartAnalysisVm
       {| vm_name := "analysis-vm";
          default_availability_zone := "us-east-1";
          boot_volume_size := 50;
          vm_cpu_cores := 4;
          vm_ami := None;
          vm_ssh_key_name := None;
          vm_attach_volumes := [] |};
     Print "Analysis VM started.";
     Print "Name: analysis-vm, Started: True, Region: us-east-1"]
  ∧ no_error_printed (@StartAnalysisVm Demo.world args).1.
Proof.
  apply (@StartAnalysisVm_no_volumes Demo.world
           (Demo.args None None None None (Some "")) 50 4);
    [right|..]; reflexivity.
Defined.

(** ** The listing commands *)

(** C2, as amended — on an empty result [ListInstances] and [ListVolumes]
    print their header line and nothing else; [ListImages] has no header
    line and prints nothing. *)
Theorem listing_empty_result `{W : External} (args : Namespace)
    (account : aws_account) :
  AWSAccount (zone args) = inr account →
  (AWSAccount_ListInstances account = inr [] →
   printed (ListInstances args).1 = ["Instances found:"])
  ∧ (AWSAccount_ListVolumes account = inr [] →
     printed (ListVolumes args).1 = ["Volumes found:"])
  ∧ (AWSAccount_ListImages account
       [{| filter_Name := "name"; filter_Values := [filter args] |}] = inr [] →
     printed (ListImages args).1 = []).
Proof.
  intros Hacc. split; [|split]; intros Hlist.
  - unfold ListInstances. rewrite Hacc. simpl. by rewrite Hlist.
  - unfold ListVolumes. rewrite Hacc. simpl. by rewrite Hlist.
  - unfold ListImages. rewrite Hacc. simpl. by rewrite Hlist.
Qed.

Lemma listing_empty_result_witness :
  let args := Demo.args None None None None None in
  printed (@ListInstances Demo.world args).1 = ["Instances found:"]
  ∧ printed (@ListVolumes Demo.world args).1 = ["Volumes found:"]
  ∧ printed (@ListImages Demo.world args).1 = [].
Proof.
  destruct (@listing_empty_result Demo.world
              (Demo.args None None None None None) "us-east-1" eq_refl)
    as (Hinstances & Hvolumes & Himages).
  split; [|split]; [apply Hinstances|apply Hvolumes|apply Himages];
    reflexivity.
Defined.

(** C2, as stated, fails for [ListImages]: on an account without images
    the run prints no line at all, so not a header line. *)
Lemma ListImages_empty_prints_nothing :
  let args := Demo.args None None None None None in
  @AWSAccount_ListImages Demo.world "us-east-1"
    [{| filter_Name := "name"; filter_Values := [filter args] |}] = inr []
  ∧ ¬ prints_only_header (@ListImages Demo.world args).
Proof. split; [reflexivity|]. intros [header H]. discriminate H. Qed.

(** ** [CreateVolumeCopy] *)

(** C8 — a [--tags] text that [json.loads] reads as an object is forwarded
    as that mapping; without [--tags], or with an empty one, [tags] is
    [None]. *)
Theorem CreateVolumeCopy_tags `{W : External} (args : Namespace) :
  let kwargs tags :=
    {| copy_zone := zone args;
       copy_dst_zone := dst_zone args;
       copy_instance_id := instance_id args;
       copy_volume_id := volume_id args;
       copy_src_profile := src_profile args;
       copy_dst_profile := dst_profile args;
       copy_tags := tags |} in
  (∀ s kv, tags args = Some s → s ≠ "" → json_loads s = inr (JDict kv) →
     copies (CreateVolumeCopy args).1 = [kwargs (Some (JDict kv))])
  ∧ (tags args = None ∨ tags args = Some "" →
     copies (CreateVolumeCopy args).1 = [kwargs None]).
Proof.
  intros kwargs. split.
  - intros s kv Hs Hne Hjson. unfold CreateVolumeCopy. rewrite Hs. simpl.
    destruct s; [done|]. simpl. rewrite Hjson. simpl.
    by destruct (forensics_CreateVolumeCopy _).
  - intros Hnone. unfold CreateVolumeCopy.
    replace (truthy (tags args)) with false by (by destruct Hnone as [->| ->]).
    simpl. by destruct (forensics_CreateVolumeCopy _).
Qed.

Lemma CreateVolumeCopy_tags_witness :
  let kwargs tags :=
    {| copy_zone := "us-east-1";
       copy_dst_zone := None;
       copy_instance_id := None;
       copy_volume_id := Some "vol-0";
       copy_src_profile := None;
       copy_dst_profile := None;
       copy_tags := tags |} in
  copies (@CreateVolumeCopy Demo.world
            (Demo.args (Some Demo.case_tag) None None None None)).1
  = [kwargs (Some (JDict [("case", JStr "42")]))]
  ∧ copies (@CreateVolumeCopy Demo.world
              (Demo.args None None None None None)).1
    = [kwargs None].
Proof.
  split.
  - apply (proj1 (@CreateVolumeCopy_tags Demo.world
                    (Demo.args (Some Demo.case_tag) None None None None))
             Demo.case_tag [("case", JStr "42")]);
      [reflexivity|discriminate|reflexivity].
  - apply (proj2 (@CreateVolumeCopy_tags Demo.world
                    (Demo.args None None None None None))).
    left. reflexivity.
Defined.

(** ** [QueryLogs] *)

Section QueryLogs_runs.

Context `{W : External}.

Lemma for_each_print {A} (l : list A) (line : A → string) :
  for_each l (fun x => print (line x)) = (map (fun x => Print (line x)) l, inr tt).
Proof.
  induction l as [|x l IH]; simpl; [done|]. by rewrite IH.
Qed.

Lemma lookups_prints {A} (l : list A) (line : A → string) :
  lookups (map (fun x => Print (line x)) l) = [].
Proof. by induction l. Qed.

End QueryLogs_runs.

(** C7 — with the account and the trail at hand: when none of [--filter],
    [--start], [--end] is given, [LookupEvents] is called with no
    parameter; when only [--start "2020-01-01 00:00:00"] is given, it is
    called with [starttime], the parsed time, and nothing else. *)
Theorem QueryLogs_parameters `{W : External} (args : Namespace)
    (account : aws_account) (ct : cloud_trail) :
  AWSAccount (zone args) = inr account → AWSCloudTrail account = inr ct →
  truthy (filter args) = false → truthy (end_ args) = false →
  (truthy (start args) = false → lookups (QueryLogs args).1 = [∅])
  ∧ (∀ t, start args = Some "2020-01-01 00:00:00" →
          strptime "2020-01-01 00:00:00" timestamp_format = inr t →
          lookups (QueryLogs args).1 = [ {[ "starttime" := PDatetime t ]} ]).
Proof.
  intros Hacc Hct Hfilter Hend. split.
  - intros Hstart. unfold QueryLogs.
    rewrite Hacc. cbn [call bind]. rewrite Hct. cbn [call bind].
    rewrite Hfilter, Hstart, Hend. cbn [ret bind].
    destruct (LookupEvents ct ∅) as [e|[|event result]]; simpl; [done..|].
    rewrite for_each_print. simpl. f_equal. apply lookups_prints.
  - intros t Hstart Hparse. unfold QueryLogs.
    rewrite Hacc. cbn [call bind]. rewrite Hct. cbn [call bind].
    rewrite Hfilter, Hstart, Hend. simpl.
    rewrite Hparse. simpl. rewrite insert_empty.
    destruct (LookupEvents ct _) as [e|[|event result]]; simpl; [done..|].
    rewrite for_each_print. simpl. f_equal. apply lookups_prints.
Qed.

Lemma QueryLogs_parameters_witness :
  lookups (@QueryLogs Demo.world (Demo.args None None None None None)).1 = [∅]
  ∧ lookups (@QueryLogs Demo.world
               (Demo.args None None (Some "2020-01-01 00:00:00") None None)).1
    = [ {[ "starttime" := PDatetime (Datetime 2020 1 1 0 0 0) ]} ].
Proof.
  split.
  - apply (proj1 (@QueryLogs_parameters Demo.world
                    (Demo.args None None None None None)
                    "us-east-1" "us-east-1"
                    eq_refl eq_refl eq_refl eq_refl)).
    reflexivity.
  - apply (proj2 (@QueryLogs_parameters Demo.world
                    (Demo.args None None (Some "2020-01-01 00:00:00") None None)
                    "us-east-1" "us-east-1"
                    eq_refl eq_refl eq_refl eq_refl)
             (Datetime 2020 1 1 0 0 0)); reflexivity.
Defined.

(** C9 — with the account and the trail at hand: when a given [--start]
    does not parse, or [--start] is fine and a given [--end] does not
    parse, the run ends with the exception of [strptime]; it has printed
    nothing and has not called [LookupEvents]. *)
Theorem QueryLogs_bad_timestamp `{W : External} (args : Namespace)
    (account : aws_account) (ct : cloud_trail) (e : exn) :
  AWSAccount (zone args) = inr account → AWSCloudTrail account = inr ct →
  (truthy (start args) = true
   ∧ strptime (str_of (start args)) timestamp_format = inl e)
  ∨ ((truthy (start args) = false
      ∨ ∃ t, strptime (str_of (start args)) timestamp_format = inr t)
     ∧ truthy (end_ args) = true
     ∧ strptime (str_of (end_ args)) timestamp_format = inl e) →
  QueryLogs args = ([CallAWSAccount (zone args); CallAWSCloudTrail], inl e).
Proof.
  intros Hacc Hct Hbad. unfold QueryLogs.
  rewrite Hacc. cbn [call bind]. rewrite Hct. cbn [call bind].
  destruct Hbad as [[Hstart Hparse]|(Hstart & Hend & Hparse)].
  - rewrite Hstart. cbn [builtin bind]. by rewrite Hparse.
  - rewrite Hend. destruct Hstart as [Hstart|[t Ht]].
    + rewrite Hstart. cbn [builtin ret bind]. by rewrite Hparse.
    + destruct (truthy (start args)); cbn [builtin ret bind];
        rewrite ?Ht; cbn [builtin ret bind]; by rewrite Hparse.
Qed.

Lemma QueryLogs_bad_timestamp_witness :
  @QueryLogs Demo.world (Demo.args None None (Some "yesterday") None None)
  = ([CallAWSAccount "us-east-1"; CallAWSCloudTrail], inl "ValueError")
  ∧ @QueryLogs Demo.world
      (Demo.args None None (Some "2020-01-01 00:00:00") (Some "2020-01-02") None)
    = ([CallAWSAccount "us-east-1"; CallAWSCloudTrail], inl "ValueError").
Proof.
  split.
  - apply (@QueryLogs_bad_timestamp Demo.world
             (Demo.args None None (Some "yesterday") None None)
             "us-east-1" "us-east-1" "ValueError" eq_refl eq_refl).
    left. split; reflexivity.
  - apply (@QueryLogs_bad_timestamp Demo.world
             (Demo.args None None (Some "2020-01-01 00:00:00")
                (Some "2020-01-02") None)
             "us-east-1" "us-east-1" "ValueError" eq_refl eq_refl).
    right. split; [right; eexists; reflexivity|split; reflexivity].
Defined.

(** * Further properties of the handlers *)

(** ** [split] and [join] *)

Section Split_join.

Variable sep : ascii.

(** Joining the fields with the separator gives the string back. *)
Lemma join_split (s : string) : str_join (String sep "") (split sep s) = s.
Proof.
  induction s as [|c s IH]; [done|]. simpl.
  destruct (Ascii.eqb_spec c sep) as [->|Hc].
  - destruct (split sep s) as [|w ws] eqn:E.
    + by destruct (split_not_nil sep s).
    + simpl in *. by rewrite IH.
  - destruct (split sep s) as [|w ws] eqn:E.
    + by destruct (split_not_nil sep s).
    + rewrite <- IH. by destruct ws.
Qed.

(** No field holds the separator. *)
Lemma split_fields_free (s : string) :
  Forall (fun w => contains sep w = false) (split sep s).
Proof.
  induction s as [|c s IH]; simpl; [by repeat constructor|].
  destruct (Ascii.eqb c sep) eqn:Hc; [by constructor|].
  destruct (split sep s) as [|w ws]; [by repeat constructor; simpl; rewrite Hc|].
  inversion_clear IH. constructor; [|done]. simpl. by rewrite Hc.
Qed.

End Split_join.

Lemma all_Forall (l : list string) : all l = true → Forall (fun w => w ≠ "") l.
Proof.
  unfold all. rewrite forallb_forall, Forall_forall.
  intros H w Hw%list_elem_of_In%H. by destruct w.
Qed.

(** ** [StartAnalysisVm]: runs that reach the library *)

Section StartAnalysisVm_calls.

Context `{W : External}.
Variable args : Namespace.

Lemma launch_never_rejected (l : list (string * string)) :
  ¬ rejected (launch args l).
Proof.
  intros [msg H]. unfold launch in H. simpl in H.
  destruct (int (disk_size args)); simpl in H; [done|].
  destruct (int (cpu_cores args)); simpl in H; [done|].
  by destruct (forensics_StartAnalysisVm _).
Qed.

(** A call of the library means both sizes were integers, and fixes the
    keyword arguments. *)
Lemma launch_call_inv (l : list (string * string)) (kw : vm_kwargs) :
  CallStartAnalysisVm kw ∈ (launch args l).1 →
  ∃ size cores,
    int (disk_size args) = inr size ∧ int (cpu_cores args) = inr cores
    ∧ kw = {| vm_name := instance_name args;
              default_availability_zone := zone args;
              boot_volume_size := size;
              vm_cpu_cores := cores;
              vm_ami := ami args;
              vm_ssh_key_name := ssh_key_name args;
              vm_attach_volumes := l |}.
Proof.
  unfold launch. simpl.
  destruct (int (disk_size args)) as [e|size]; simpl.
  { intros [=]%list_elem_of_singleton. }
  destruct (int (cpu_cores args)) as [e|cores]; simpl.
  { intros [=]%list_elem_of_singleton. }
  intros Hin. exists size, cores. split; [done|split; [done|]].
  destruct (forensics_StartAnalysisVm _) as [e|vm]; simpl in Hin;
    rewrite ?elem_of_cons, ?elem_of_nil in Hin;
    repeat destruct Hin as [Hin|Hin]; try done; by injection Hin.
Qed.

(** A run that is not a rejection went on with the attachments built
    from the argument. *)
Lemma StartAnalysisVm_launched :
  ¬ rejected (StartAnalysisVm args) →
  ∃ l, StartAnalysisVm args = launch args l
       ∧ ((truthy (attach_volumes args) = false ∧ l = [])
          ∨ (truthy (attach_volumes args) = true
             ∧ len (str_of (attach_volumes args)) ≤ 11
             ∧ all (split "," (str_of (attach_volumes args))) = true
             ∧ l = (device_loop (split "," (str_of (attach_volumes args)))).1)).
Proof.
  intros Hnot.
  destruct (StartAnalysisVm_cases args) as [H|[[Ht Hrun]|(Ht & Hlen & Hall & Hrun)]];
    [done|eexists; split; [done|auto]..].
Qed.

Lemma StartAnalysisVm_call_launched (kw : vm_kwargs) :
  CallStartAnalysisVm kw ∈ (StartAnalysisVm args).1 →
  ¬ rejected (StartAnalysisVm args).
Proof.
  intros Hin [msg Hrej]. rewrite Hrej in Hin.
  by apply list_elem_of_singleton in Hin.
Qed.

End StartAnalysisVm_calls.

(** ** [StartAnalysisVm]: the validation as it is *)

Lemma StartAnalysisVm_rejects `{W : External} (args : Namespace) :
  truthy (attach_volumes args) = true →
  11 < len (str_of (attach_volumes args))
  ∨ all (split "," (str_of (attach_volumes args))) = false →
  rejected (StartAnalysisVm args).
Proof.
  intros Ht [Hlen|Hall].
  - eexists. by rewrite StartAnalysisVm_too_long.
  - destruct (decide (11 < len (str_of (attach_volumes args)))).
    + eexists. by rewrite StartAnalysisVm_too_long.
    + eexists. rewrite StartAnalysisVm_empty_field by (done || lia). done.
Qed.



(** X2 — the length check comes first: a rejected argument of more than
    eleven characters gets the [must be < 11] message, whatever its
    fields; a shorter one is echoed in the message. *)
Theorem StartAnalysisVm_error_line `{W : External} (args : Namespace) :
  rejected (StartAnalysisVm args) →
  printed (StartAnalysisVm args).1
  = [if 11 <? len (str_of (attach_volumes args))
     then "error: --attach_volumes must be < 11"
     else "error: parameter --attach_volumes: " +:+ str_of (attach_volumes args)].
Proof.
  intros Hrej.
  destruct (StartAnalysisVm_cases args) as [_|[[_ Hrun]|(_ & _ & _ & Hrun)]];
    [|rewrite Hrun in Hrej; by destruct (launch_never_rejected args _ Hrej)..].
  unfold StartAnalysisVm in *.
  destruct (truthy (attach_volumes args)) eqn:Ht; simpl in *.
  - destruct (11 <? len (str_of (attach_volumes args))); [done|]. simpl in *.
    destruct (bool_list _ && all _) eqn:Hok; simpl in *; [|done].
    exfalso. destruct Hrej as [msg Hrej].
    destruct (int (disk_size args)); simpl in Hrej; [done|].
    destruct (int (cpu_cores args)); simpl in Hrej; [done|].
    by destruct (forensics_StartAnalysisVm _).
  - exfalso. destruct Hrej as [msg Hrej].
    destruct (int (disk_size args)); simpl in Hrej; [done|].
    destruct (int (cpu_cores args)); simpl in Hrej; [done|].
    by destruct (forensics_StartAnalysisVm _).
Qed.

Lemma StartAnalysisVm_error_line_witness :
  printed (@StartAnalysisVm Sample.world
             (Sample.args "us-east-1" "50" None None None None
                (Some "vol-1,,vol-2"))).1
  = ["error: --attach_volumes must be < 11"].
Proof.
  apply (@StartAnalysisVm_error_line Sample.world
           (Sample.args "us-east-1" "50" None None None None
              (Some "vol-1,,vol-2"))).
  exists "--attach_volumes must be < 11". reflexivity.
Defined.

(** X3 — seven or more entries are never accepted: within eleven
    characters one of them is empty. *)
Theorem StartAnalysisVm_seven_entries_rejected `{W : External}
    (args : Namespace) (s : string) :
  attach_volumes args = Some s →
  7 ≤ length (split "," s) →
  rejected (StartAnalysisVm args) ∧ vm_starts (StartAnalysisVm args).1 = [].
Proof.
  intros Hs Hn.
  assert (Hrej : rejected (StartAnalysisVm args)).
  { apply StartAnalysisVm_rejects.
    { rewrite Hs. destruct s; [simpl in Hn; lia|done]. }
    rewrite Hs. simpl.
    destruct (all (split "," s)) eqn:Hall; [|auto].
    apply split_all_count in Hall. left. lia. }
  split; [done|]. by destruct Hrej as [msg ->].
Qed.

Lemma StartAnalysisVm_seven_entries_rejected_witness :
  let args := Sample.args "us-east-1" "50" None None None None
                (Some "a,b,c,d,e,f,g") in
  rejected (@StartAnalysisVm Sample.world args)
  ∧ vm_starts (@StartAnalysisVm Sample.world args).1 = [].
Proof.
  apply (@StartAnalysisVm_seven_entries_rejected Sample.world _ "a,b,c,d,e,f,g");
    [reflexivity|vm_compute; lia].
Defined.

(** ** [StartAnalysisVm]: the attachments *)

Lemma StartAnalysisVm_attachments `{W : External} (args : Namespace)
    (kw : vm_kwargs) :
  CallStartAnalysisVm kw ∈ (StartAnalysisVm args).1 →
  (truthy (attach_volumes args) = false ∧ vm_attach_volumes kw = [])
  ∨ (truthy (attach_volumes args) = true
     ∧ len (str_of (attach_volumes args)) ≤ 11
     ∧ all (split "," (str_of (attach_volumes args))) = true
     ∧ vm_attach_volumes kw
       = (device_loop (split "," (str_of (attach_volumes args)))).1).
Proof.
  intros Hin.
  destruct (StartAnalysisVm_launched args) as (l & Hrun & Hl).
  { by eapply StartAnalysisVm_call_launched. }
  rewrite Hrun in Hin. apply launch_call in Hin. rewrite Hin.
  destruct Hl as [[? ?]|(? & ? & ? & ?)]; auto.
Qed.

(** X4 — the volume ids the library gets are the fields of the argument,
    in order: joined with commas they give the argument back, and each is
    non-empty and without a comma. *)
Theorem StartAnalysisVm_volumes_round_trip `{W : External} (args : Namespace)
    (kw : vm_kwargs) :
  CallStartAnalysisVm kw ∈ (StartAnalysisVm args).1 →
  truthy (attach_volumes args) = true →
  str_join "," (vm_attach_volumes kw).*1 = str_of (attach_volumes args)
  ∧ Forall (fun volume => volume ≠ "" ∧ contains "," volume = false)
      (vm_attach_volumes kw).*1.
Proof.
  intros Hin Ht.
  destruct (StartAnalysisVm_attachments args kw Hin)
    as [[Hf _]|(_ & _ & Hall & ->)]; [congruence|].
  rewrite device_loop_zip, fst_zip by (rewrite length_map, length_seq; lia).
  split; [apply join_split|].
  apply Forall_and. split; [by apply all_Forall|apply split_fields_free].
Qed.

Lemma StartAnalysisVm_volumes_round_trip_witness :
  str_join "," ["vol-1"; "vol-2"] = "vol-1,vol-2"
  ∧ Forall (fun volume => volume ≠ "" ∧ contains "," volume = false)
      ["vol-1"; "vol-2"].
Proof.
  apply (@StartAnalysisVm_volumes_round_trip Sample.world
           (Sample.args "us-east-1" "50" None None None None (Some "vol-1,vol-2"))
           {| vm_name := "analysis-vm";
              default_availability_zone := "us-east-1";
              boot_volume_size := 50;
              vm_cpu_cores := 4;
              vm_ami := None;
              vm_ssh_key_name := None;
              vm_attach_volumes := [("vol-1", "/dev/sdf"); ("vol-2", "/dev/sdg")] |}).
  - vm_compute. apply list_elem_of_further, list_elem_of_here.
  - reflexivity.
Defined.

(** X5 — the library never gets more than six attachments, and their
    device names are those of the letters from [f] on, one after the
    other, so no two are the same. *)
Theorem StartAnalysisVm_device_letters `{W : External} (args : Namespace)
    (kw : vm_kwargs) :
  CallStartAnalysisVm kw ∈ (StartAnalysisVm args).1 →
  length (vm_attach_volumes kw) ≤ 6
  ∧ (vm_attach_volumes kw).*2
    = map device (seq (ord "f") (length (vm_attach_volumes kw)))
  ∧ NoDup (vm_attach_volumes kw).*2.
Proof.
  intros Hin.
  destruct (StartAnalysisVm_attachments args kw Hin)
    as [[_ ->]|(_ & Hlen & Hall & ->)].
  { simpl. repeat split; [lia|constructor]. }
  apply split_all_count in Hall.
  set (volumes := split "," (str_of (attach_volumes args))) in *.
  assert (Hn : length (device_loop volumes).1 = length volumes).
  { rewrite device_loop_zip, length_zip, length_map, length_seq. lia. }
  rewrite Hn. split; [lia|]. split.
  - rewrite device_loop_zip, snd_zip; [done|].
    rewrite length_map, length_seq. lia.
  - apply device_loop_distinct. lia.
Qed.

Lemma StartAnalysisVm_device_letters_witness :
  let l := [("a", "/dev/sdf"); ("b", "/dev/sdg"); ("c", "/dev/sdh");
            ("d", "/dev/sdi"); ("e", "/dev/sdj"); ("f", "/dev/sdk")] in
  length l ≤ 6
  ∧ l.*2 = map device (seq (ord "f") (length l))
  ∧ NoDup l.*2.
Proof.
  apply (@StartAnalysisVm_device_letters Sample.world
           (Sample.args "us-east-1" "50" None None None None (Some "a,b,c,d,e,f"))
           {| vm_name := "analysis-vm";
              default_availability_zone := "us-east-1";
              boot_volume_size := 50;
              vm_cpu_cores := 4;
              vm_ami := None;
              vm_ssh_key_name := None;
              vm_attach_volumes :=
                [("a", "/dev/sdf"); ("b", "/dev/sdg"); ("c", "/dev/sdh");
                 ("d", "/dev/sdi"); ("e", "/dev/sdj"); ("f", "/dev/sdk")] |}).
  vm_compute. apply list_elem_of_further, list_elem_of_here.
Defined.

(** ** [StartAnalysisVm]: exceptions on the way *)

(** X6 — past the validation, a [--disk_size] or [--cpu_cores] that is no
    integer ends the run with the exception of [int], after the first
    line and before any call of the library. *)
Theorem StartAnalysisVm_bad_size `{W : External} (args : Namespace) (e : exn) :
  ¬ rejected (StartAnalysisVm args) →
  int (disk_size args) = inl e
  ∨ (∃ size, int (disk_size args) = inr size) ∧ int (cpu_cores args) = inl e →
  StartAnalysisVm args = ([Print "Starting analysis VM..."], inl e).
Proof.
  intros Hnot Hbad.
  destruct (StartAnalysisVm_launched args Hnot) as (l & -> & _).
  unfold launch. simpl.
  destruct Hbad as [Hsize|[[size Hsize] Hcores]]; rewrite Hsize; simpl; [done|].
  by rewrite Hcores.
Qed.

Lemma StartAnalysisVm_bad_size_witness :
  @StartAnalysisVm Sample.world
    (Sample.args "us-east-1" "fifty" None None None None (Some "vol-1,vol-2"))
  = ([Print "Starting analysis VM..."], inl "ValueError").
Proof.
  apply (@StartAnalysisVm_bad_size Sample.world
           (Sample.args "us-east-1" "fifty" None None None None
              (Some "vol-1,vol-2")) "ValueError").
  - intros [msg H]. vm_compute in H. discriminate H.
  - left. reflexivity.
Defined.

(** X7 — the library is called at most once; when it raises, the run ends
    with its exception and [Analysis VM started.] is not printed; when it
    returns, the run prints its three lines and returns. *)
Theorem StartAnalysisVm_outcome `{W : External} (args : Namespace)
    (kw : vm_kwargs) :
  CallStartAnalysisVm kw ∈ (StartAnalysisVm args).1 →
  vm_starts (StartAnalysisVm args).1 = [kw]
  ∧ match forensics_StartAnalysisVm kw with
    | inl e =>
        (StartAnalysisVm args).2 = inl e
        ∧ printed (StartAnalysisVm args).1 = ["Starting analysis VM..."]
    | inr vm =>
        (StartAnalysisVm args).2 = inr tt
        ∧ printed (StartAnalysisVm args).1
          = ["Starting analysis VM..."; "Analysis VM started.";
             "Name: " +:+ ec2_name vm.1 +:+ ", Started: "
             +:+ str_vm_started vm.2 +:+ ", Region: " +:+ ec2_region vm.1]
    end.
Proof.
  intros Hin.
  destruct (StartAnalysisVm_launched args) as (l & Hrun & _).
  { by eapply StartAnalysisVm_call_launched. }
  rewrite Hrun in *.
  destruct (launch_call_inv args l kw Hin) as (size & cores & Hsize & Hcores & ->).
  unfold launch. simpl. rewrite Hsize. simpl. rewrite Hcores. simpl.
  by destruct (forensics_StartAnalysisVm _).
Qed.

Lemma StartAnalysisVm_outcome_witness :
  let args := Sample.args "eu-west-1" "50" None None None None (Some "vol-1") in
  let kw := {| vm_name := "analysis-vm";
               default_availability_zone := "eu-west-1";
               boot_volume_size := 50;
               vm_cpu_cores := 4;
               vm_ami := None;
               vm_ssh_key_name := None;
               vm_attach_volumes := [("vol-1", "/dev/sdf")] |} in
  vm_starts (@StartAnalysisVm Sample.world args).1 = [kw]
  ∧ (@StartAnalysisVm Sample.world args).2 = inl "RuntimeError"
  ∧ printed (@StartAnalysisVm Sample.world args).1 = ["Starting analysis VM..."].
Proof.
  apply (@StartAnalysisVm_outcome Sample.world
           (Sample.args "eu-west-1" "50" None None None None (Some "vol-1"))
           {| vm_name := "analysis-vm";
              default_availability_zone := "eu-west-1";
              boot_volume_size := 50;
              vm_cpu_cores := 4;
              vm_ami := None;
              vm_ssh_key_name := None;
              vm_attach_volumes := [("vol-1", "/dev/sdf")] |}).
  vm_compute. apply list_elem_of_further, list_elem_of_here.
Defined.

(** ** Loops *)

Section Loops.

Context `{W : External} {A : Type}.
Variable body : A → M unit.
Variable events : A → trace.

(** A loop whose steps all return. *)
Lemma for_each_return (l : list A) :
  (∀ x, x ∈ l → body x = (events x, inr tt)) →
  for_each l body = (concat (map events l), inr tt).
Proof.
  induction l as [|x l IH]; intros Hl; simpl; [done|].
  rewrite (Hl x) by left. simpl.
  rewrite IH; [done|]. intros y Hy. apply Hl. by right.
Qed.

(** A loop that raises at [x]: the steps after it are not run. *)
Lemma for_each_raise (l : list A) (x : A) (rest : list A) (t : trace) (e : exn) :
  (∀ y, y ∈ l → body y = (events y, inr tt)) →
  body x = (t, inl e) →
  for_each (l ++ x :: rest) body = (concat (map events l) ++ t, inl e).
Proof.
  induction l as [|y l IH]; intros Hl Hx; simpl.
  - by rewrite Hx.
  - rewrite (Hl y) by left. simpl.
    rewrite IH; [by rewrite app_assoc|by intros z Hz; apply Hl; right|done].
Qed.

End Loops.

Lemma printed_app (t1 t2 : trace) : printed (t1 ++ t2) = printed t1 ++ printed t2.
Proof. apply omap_app. Qed.

Lemma printed_prints {A} (line : A → string) (l : list A) :
  printed (concat (map (fun x => [Print (line x)]) l)) = map line l.
Proof. induction l as [|x l IH]; simpl; [done|]. by rewrite <- IH. Qed.

(** ** [ListVolumes] and [ListInstances] *)

(** X8 — [ListVolumes] prints the header and then one line for each
    volume of the listing, in the order of the listing, and returns. *)
Theorem ListVolumes_lines `{W : External} (args : Namespace)
    (account : aws_account) (volumes : list (string * ebs_volume)) :
  AWSAccount (zone args) = inr account →
  AWSAccount_ListVolumes account = inr volumes →
  printed (ListVolumes args).1 = "Volumes found:" :: map volume_line volumes
  ∧ (ListVolumes args).2 = inr tt.
Proof.
  intros Hacc Hlist. unfold ListVolumes. rewrite Hacc. simpl. rewrite Hlist. simpl.
  rewrite (for_each_return _ (fun entry => [Print (volume_line entry)])).
  - simpl. by rewrite printed_prints.
  - by intros [volume obj] _.
Qed.

Lemma ListVolumes_lines_witness :
  let args := Sample.args "us-east-1" "50" None None None None None in
  printed (@ListVolumes Sample.world args).1
  = ["Volumes found:"; "Name: vol-a, Zone: us-east-1a";
     "Name: vol-b, Zone: us-east-1b"]
  ∧ (@ListVolumes Sample.world args).2 = inr tt.
Proof.
  apply (@ListVolumes_lines Sample.world
           (Sample.args "us-east-1" "50" None None None None None) "us-east-1"
           [("vol-a", ("vol-a", "a", "us-east-1a"));
            ("vol-b", ("vol-b", "b", "us-east-1b"))]); reflexivity.
Defined.

Section ListInstances_loop.

Context `{W : External}.

(** What the loop of [ListInstances] does for an instance. *)
Lemma ListInstances_step (entry : string * ec2_instance) :
  (let '(instance, obj) := entry in
   bind (call (CallGetBootVolume instance) (GetBootVolume obj)) (fun boot =>
     let boot_volume := ebs_volume_id boot in
     print ("Name: " +:+ instance +:+ ", Boot volume: " +:+ boot_volume)))
  = match GetBootVolume entry.2 with
    | inr boot =>
        ([CallGetBootVolume entry.1; Print (instance_line entry boot)], inr tt)
    | inl e => ([CallGetBootVolume entry.1], inl e)
    end.
Proof. destruct entry as [instance obj]. simpl. by destruct (GetBootVolume obj). Qed.

End ListInstances_loop.

(** X9 — when every instance of the listing has a boot volume,
    [ListInstances] prints the header and then one line for each instance,
    in the order of the listing, and returns. *)
Theorem ListInstances_lines `{W : External} (args : Namespace)
    (account : aws_account) (instances : list (string * ec2_instance))
    (boot_of : string * ec2_instance → ebs_volume) :
  AWSAccount (zone args) = inr account →
  AWSAccount_ListInstances account = inr instances →
  (∀ entry, entry ∈ instances → GetBootVolume entry.2 = inr (boot_of entry)) →
  printed (ListInstances args).1
  = "Instances found:"
    :: map (fun entry => instance_line entry (boot_of entry)) instances
  ∧ (ListInstances args).2 = inr tt.
Proof.
  intros Hacc Hlist Hboot. unfold ListInstances.
  rewrite Hacc. simpl. rewrite Hlist. simpl.
  rewrite (for_each_return _
    (fun entry => [CallGetBootVolume entry.1;
                   Print (instance_line entry (boot_of entry))])).
  - simpl. split; [|done]. f_equal.
    clear. induction instances as [|entry l IH]; simpl; [done|]. by rewrite IH.
  - intros entry Hin. rewrite ListInstances_step. by rewrite (Hboot entry Hin).
Qed.

Lemma ListInstances_lines_witness :
  let args := Sample.args "us-east-1" "50" None None None None None in
  printed (@ListInstances Sample.world args).1
  = ["Instances found:"; "Name: i-1, Boot volume: vol-i-1";
     "Name: i-2, Boot volume: vol-i-2"]
  ∧ (@ListInstances Sample.world args).2 = inr tt.
Proof.
  apply (@ListInstances_lines Sample.world
           (Sample.args "us-east-1" "50" None None None None None) "us-east-1"
           [("i-1", Sample.instance "i-1"); ("i-2", Sample.instance "i-2")]
           (fun entry => ("vol-" +:+ entry.1, "boot", "us-east-1")));
    [reflexivity|reflexivity|].
  intros entry Hin.
  apply elem_of_cons in Hin as [->|Hin]; [reflexivity|].
  apply elem_of_cons in Hin as [->|Hin]; [reflexivity|].
  by apply elem_of_nil in Hin.
Defined.

(** X10 — when [GetBootVolume] raises for an instance, [ListInstances]
    ends with that exception: the instances before it have their line, the
    one that failed and those after it have none. *)
Theorem ListInstances_boot_failure `{W : External} (args : Namespace)
    (account : aws_account) (before after : list (string * ec2_instance))
    (failing : string * ec2_instance)
    (boot_of : string * ec2_instance → ebs_volume) (e : exn) :
  AWSAccount (zone args) = inr account →
  AWSAccount_ListInstances account = inr (before ++ failing :: after) →
  (∀ entry, entry ∈ before → GetBootVolume entry.2 = inr (boot_of entry)) →
  GetBootVolume failing.2 = inl e →
  printed (ListInstances args).1
  = "Instances found:"
    :: map (fun entry => instance_line entry (boot_of entry)) before
  ∧ (ListInstances args).2 = inl e.
Proof.
  intros Hacc Hlist Hboot Hfail. unfold ListInstances.
  rewrite Hacc. simpl. rewrite Hlist. simpl.
  rewrite (for_each_raise _
    (fun entry => [CallGetBootVolume entry.1;
                   Print (instance_line entry (boot_of entry))])
    before failing after [CallGetBootVolume failing.1] e).
  - simpl. split; [|done]. f_equal. rewrite printed_app, app_nil_r.
    clear. induction before as [|entry l IH]; simpl; [done|]. by rewrite IH.
  - intros entry Hin. rewrite ListInstances_step. by rewrite (Hboot entry Hin).
  - rewrite ListInstances_step. by rewrite Hfail.
Qed.

Lemma ListInstances_boot_failure_witness :
  let args := Sample.args "eu-west-1" "50" None None None None None in
  printed (@ListInstances Sample.world args).1
  = ["Instances found:"; "Name: i-1, Boot volume: vol-i-1"]
  ∧ (@ListInstances Sample.world args).2 = inl "RuntimeError".
Proof.
  apply (@ListInstances_boot_failure Sample.world
           (Sample.args "eu-west-1" "50" None None None None None) "eu-west-1"
           [("i-1", Sample.instance "i-1")] [("i-3", Sample.instance "i-3")]
           ("i-broken", Sample.instance "i-broken")
           (fun entry => ("vol-" +:+ entry.1, "boot", "us-east-1"))
           "RuntimeError");
    [reflexivity|reflexivity| |reflexivity].
  intros entry Hin.
  apply elem_of_cons in Hin as [->|Hin]; [reflexivity|].
  by apply elem_of_nil in Hin.
Defined.

(** ** [ListImages] *)

Section ListImages_loop.

Context `{W : External}.

(** What the loop of [ListImages] does for an image: its line, or the
    [KeyError] of the first key it does not have. *)
Lemma ListImages_step (image : gmap string string) :
  bind (getitem image "Name") (fun name =>
  bind (getitem image "ImageId") (fun image_id =>
  bind (getitem image "ImageLocation") (fun location =>
  print ("Name: " +:+ name +:+ ", ImageId: " +:+ image_id
         +:+ ", Location: " +:+ location))))
  = match first_missing_key image with
    | None => ([Print (image_line image)], inr tt)
    | Some key => ([], inl (KeyError key))
    end.
Proof.
  unfold getitem, first_missing_key, image_line, builtin.
  rewrite !lookup_total_alt.
  destruct (image !! "Name"); simpl; [|done].
  destruct (image !! "ImageId"); simpl; [|done].
  by destruct (image !! "ImageLocation").
Qed.

End ListImages_loop.

(** X11 — when every image of the listing has its [Name], [ImageId] and
    [ImageLocation], [ListImages] prints one line for each image, in the
    order of the listing, and no other line, and returns. *)
Theorem ListImages_lines `{W : External} (args : Namespace)
    (account : aws_account) (images : list (gmap string string)) :
  AWSAccount (zone args) = inr account →
  AWSAccount_ListImages account
    [{| filter_Name := "name"; filter_Values := [filter args] |}] = inr images →
  Forall (fun image => first_missing_key image = None) images →
  printed (ListImages args).1 = map image_line images
  ∧ (ListImages args).2 = inr tt.
Proof.
  intros Hacc Hlist Hkeys. unfold ListImages.
  rewrite Hacc. cbn [call bind]. rewrite Hlist. cbn [call bind].
  rewrite (for_each_return _ (fun image => [Print (image_line image)])).
  - simpl. by rewrite printed_prints.
  - intros image Hin. rewrite ListImages_step.
    by rewrite (proj1 (Forall_forall _ _) Hkeys image Hin).
Qed.

Lemma ListImages_lines_witness :
  let args := Sample.args "us-east-1" "50" None (Some "d*") None None None in
  printed (@ListImages Sample.world args).1
  = ["Name: debian, ImageId: ami-1, Location: aws/debian";
     "Name: ubuntu, ImageId: ami-2, Location: aws/ubuntu"]
  ∧ (@ListImages Sample.world args).2 = inr tt.
Proof.
  apply (@ListImages_lines Sample.world
           (Sample.args "us-east-1" "50" None (Some "d*") None None None)
           "us-east-1"
           [Sample.image "debian" "ami-1" "aws/debian";
            Sample.image "ubuntu" "ami-2" "aws/ubuntu"]);
    [reflexivity|reflexivity|].
  repeat constructor.
Defined.

(** X12 — an image without one of the three keys ends [ListImages] with
    the [KeyError] of the first key it lacks: the images before it have
    their line, this one and those after it have none. *)
Theorem ListImages_missing_key `{W : External} (args : Namespace)
    (account : aws_account) (before after : list (gmap string string))
    (image : gmap string string) (key : string) :
  AWSAccount (zone args) = inr account →
  AWSAccount_ListImages account
    [{| filter_Name := "name"; filter_Values := [filter args] |}]
  = inr (before ++ image :: after) →
  Forall (fun image => first_missing_key image = None) before →
  first_missing_key image = Some key →
  printed (ListImages args).1 = map image_line before
  ∧ (ListImages args).2 = inl (KeyError key).
Proof.
  intros Hacc Hlist Hkeys Hkey. unfold ListImages.
  rewrite Hacc. cbn [call bind]. rewrite Hlist. cbn [call bind].
  rewrite (for_each_raise _ (fun image => [Print (image_line image)])
             before image after [] (KeyError key)).
  - simpl. by rewrite app_nil_r, printed_prints.
  - intros image' Hin. rewrite ListImages_step.
    by rewrite (proj1 (Forall_forall _ _) Hkeys image' Hin).
  - rewrite ListImages_step. by rewrite Hkey.
Qed.

Lemma ListImages_missing_key_witness :
  let args := Sample.args "eu-west-1" "50" None None None None None in
  printed (@ListImages Sample.world args).1
  = ["Name: debian, ImageId: ami-1, Location: aws/debian"]
  ∧ (@ListImages Sample.world args).2 = inl "KeyError: ImageId".
Proof.
  apply (@ListImages_missing_key Sample.world
           (Sample.args "eu-west-1" "50" None None None None None) "eu-west-1"
           [Sample.image "debian" "ami-1" "aws/debian"]
           [Sample.image "ubuntu" "ami-2" "aws/ubuntu"]
           {[ "Name" := "nameless"; "ImageLocation" := "aws/nowhere" ]}
           "ImageId");
    [reflexivity|reflexivity| |reflexivity].
  repeat constructor.
Defined.

(** ** Steps of a run *)

Section Steps.

Context `{W : External} {A B : Type}.

Lemma bind_ret (a : A) (f : A → M B) : bind (ret a) f = f a.
Proof. unfold bind, ret. by destruct (f a). Qed.

Lemma bind_call (e : event) (answer : exn + A) (f : A → M B) :
  bind (call e answer) f
  = match answer with
    | inl x => ([e], inl x)
    | inr a => (e :: (f a).1, (f a).2)
    end.
Proof. unfold bind, call. destruct answer as [x|a]; [done|]. by destruct (f a). Qed.

Lemma bind_builtin (answer : exn + A) (f : A → M B) :
  bind (builtin answer) f
  = match answer with
    | inl x => ([], inl x)
    | inr a => f a
    end.
Proof. unfold bind, builtin. destruct answer as [x|a]; [done|]. by destruct (f a). Qed.

End Steps.

Lemma bind_print `{W : External} {B : Type} (line : string) (f : unit → M B) :
  bind (print line) f = (Print line :: (f tt).1, (f tt).2).
Proof. unfold bind, print. by destruct (f tt). Qed.

(** ** [QueryLogs]: the parameters and the report *)

Section QueryLogs_steps.

Context `{W : External}.

(** The step that parses a timestamp flag into [params]. *)
Lemma parse_step {B : Type} (flag : option string) (key : string)
    (params : gmap string param) (f : gmap string param → M B) :
  bind (if truthy flag then
          bind (builtin (strptime (str_of flag) timestamp_format))
            (fun t => ret (<[key := PDatetime t]> params))
        else ret params) f
  = if truthy flag then
      match strptime (str_of flag) timestamp_format with
      | inl e => ([], inl e)
      | inr t => f (<[key := PDatetime t]> params)
      end
    else f params.
Proof.
  destruct (truthy flag); [|apply bind_ret].
  rewrite bind_builtin.
  destruct (strptime _ _); [done|]. by rewrite bind_ret.
Qed.

(** The call of [LookupEvents] and the report of its answer. *)
Lemma report_step (ct : cloud_trail) (params : gmap string param) :
  bind (call (CallLookupEvents params) (LookupEvents ct params))
    (fun result =>
       if bool_list result then
         bind (print ("Log events found: " +:+ format_d (length result)))
           (fun _ => for_each result (fun event => print (str_log_event event)))
       else ret tt)
  = match LookupEvents ct params with
    | inl e => ([CallLookupEvents params], inl e)
    | inr result =>
        (CallLookupEvents params :: map Print (report_lines result), inr tt)
    end.
Proof.
  rewrite bind_call.
  destruct (LookupEvents ct params) as [e|[|event result]]; [done..|].
  cbn [bool_list]. rewrite bind_print, for_each_print.
  unfold report_lines. simpl. by rewrite map_map.
Qed.

Lemma lookups_report (ct : cloud_trail) (params : gmap string param) (e : event) :
  e ∈ match LookupEvents ct params with
      | inl e => ([CallLookupEvents params], inl e)
      | inr result =>
          (CallLookupEvents params :: map Print (report_lines result), inr tt)
      end.1 →
  e = CallLookupEvents params ∨ ∃ line, e = Print line.
Proof.
  destruct (LookupEvents ct params) as [x|result]; simpl.
  - intros ->%list_elem_of_singleton. by left.
  - intros [->|Hin]%elem_of_cons; [by left|].
    apply list_elem_of_fmap in Hin as (line & -> & _). right. by exists line.
Qed.

(** The run of [QueryLogs] with the account and the trail at hand. *)
Lemma QueryLogs_run (args : Namespace) (account : aws_account) (ct : cloud_trail) :
  AWSAccount (zone args) = inr account → AWSCloudTrail account = inr ct →
  let report params :=
    match LookupEvents ct params with
    | inl e => ([CallLookupEvents params], inl e)
    | inr result =>
        (CallLookupEvents params :: map Print (report_lines result), inr tt)
    end in
  let with_end params :=
    if truthy (end_ args) then
      match strptime (str_of (end_ args)) timestamp_format with
      | inl e => ([], inl e)
      | inr t => report (<["endtime" := PDatetime t]> params)
      end
    else report params in
  let with_start params :=
    if truthy (start args) then
      match strptime (str_of (start args)) timestamp_format with
      | inl e => ([], inl e)
      | inr t => with_end (<["starttime" := PDatetime t]> params)
      end
    else with_end params in
  let rest :=
    with_start (if truthy (filter args)
                then <["qfilter" := PStr (str_of (filter args))]> ∅
                else ∅) in
  QueryLogs args
  = (CallAWSAccount (zone args) :: CallAWSCloudTrail :: rest.1, rest.2).
Proof.
  intros Hacc Hct. cbv zeta. unfold QueryLogs.
  rewrite bind_call, Hacc, bind_call, Hct. cbv zeta.
  rewrite parse_step.
  destruct (truthy (start args)).
  - destruct (strptime (str_of (start args)) _); [done|].
    rewrite parse_step.
    destruct (truthy (end_ args)); [|by rewrite report_step].
    destruct (strptime (str_of (end_ args)) _); [done|]. by rewrite report_step.
  - rewrite parse_step.
    destruct (truthy (end_ args)); [|by rewrite report_step].
    destruct (strptime (str_of (end_ args)) _); [done|]. by rewrite report_step.
Qed.

End QueryLogs_steps.

Lemma lookups_lines (lines : list string) : lookups (map Print lines) = [].
Proof. by induction lines. Qed.

Lemma printed_lines (lines : list string) : printed (map Print lines) = lines.
Proof. induction lines as [|line lines IH]; simpl; [done|]. by rewrite <- IH at 2. Qed.

(** X13 — when the timestamps that are given parse, [LookupEvents] is
    called once, with a dictionary that has [qfilter], [starttime] and
    [endtime] for the flags that are given, with their values, and no
    entry for a flag that is not. *)
Theorem QueryLogs_params_of_flags `{W : External} (args : Namespace)
    (account : aws_account) (ct : cloud_trail) (ts te : datetime) :
  AWSAccount (zone args) = inr account → AWSCloudTrail account = inr ct →
  (truthy (start args) = true →
   strptime (str_of (start args)) timestamp_format = inr ts) →
  (truthy (end_ args) = true →
   strptime (str_of (end_ args)) timestamp_format = inr te) →
  ∃ params : gmap string param,
    lookups (QueryLogs args).1 = [params]
    ∧ params !! "qfilter"
      = (if truthy (filter args) then Some (PStr (str_of (filter args))) else None)
    ∧ params !! "starttime"
      = (if truthy (start args) then Some (PDatetime ts) else None)
    ∧ params !! "endtime"
      = (if truthy (end_ args) then Some (PDatetime te) else None)
    ∧ dom params ⊆ {[ "qfilter"; "starttime"; "endtime" ]}.
Proof.
  intros Hacc Hct Hstart Hend.
  rewrite (QueryLogs_run args account ct Hacc Hct). cbv zeta.
  destruct (truthy (filter args)), (truthy (start args)), (truthy (end_ args));
    rewrite ?Hstart, ?Hend by reflexivity;
    (eexists; split;
     [destruct (LookupEvents ct _); simpl; [done|by rewrite lookups_lines]
     |split; [reflexivity|split; [reflexivity|split; [reflexivity|]]];
      rewrite ?dom_insert_L, dom_empty_L;
      apply (bool_decide_unpack _); vm_compute; exact I]).
Qed.

Lemma QueryLogs_params_of_flags_witness :
  ∃ params : gmap string param,
    lookups (@QueryLogs Sample.world
               (Sample.args "us-east-1" "50" None (Some "StartInstances")
                  None (Some "2020-01-02 12:30:00") None)).1 = [params]
    ∧ params !! "qfilter" = Some (PStr "StartInstances")
    ∧ params !! "starttime" = None
    ∧ params !! "endtime" = Some (PDatetime (Datetime 2020 1 2 12 30 0))
    ∧ dom params ⊆ {[ "qfilter"; "starttime"; "endtime" ]}.
Proof.
  apply (@QueryLogs_params_of_flags Sample.world
           (Sample.args "us-east-1" "50" None (Some "StartInstances")
              None (Some "2020-01-02 12:30:00") None)
           "us-east-1" "us-east-1"
           (Datetime 2020 1 1 0 0 0) (Datetime 2020 1 2 12 30 0));
    [reflexivity|reflexivity|discriminate|reflexivity].
Defined.

(** X14 — a run that called [LookupEvents] called it once.  When the
    library raises, the run ends with its exception and prints nothing;
    when it returns no event, the run prints nothing; when it returns
    events, the run prints their number and then one line for each. *)
Theorem QueryLogs_report `{W : External} (args : Namespace)
    (account : aws_account) (ct : cloud_trail) (params : gmap string param) :
  AWSAccount (zone args) = inr account → AWSCloudTrail account = inr ct →
  CallLookupEvents params ∈ (QueryLogs args).1 →
  lookups (QueryLogs args).1 = [params]
  ∧ match LookupEvents ct params with
    | inl e =>
        (QueryLogs args).2 = inl e ∧ printed (QueryLogs args).1 = []
    | inr result =>
        (QueryLogs args).2 = inr tt
        ∧ printed (QueryLogs args).1 = report_lines result
    end.
Proof.
  intros Hacc Hct. rewrite (QueryLogs_run args account ct Hacc Hct). cbv zeta.
  assert (Hreport : ∀ built : gmap string param,
    CallLookupEvents params
    ∈ CallAWSAccount (zone args) :: CallAWSCloudTrail
      :: match LookupEvents ct built with
         | inl e => ([CallLookupEvents built], inl e)
         | inr result =>
             (CallLookupEvents built :: map Print (report_lines result),
              inr (A := exn) tt)
         end.1 →
    built = params).
  { intros built [[=]|[[=]|Hin]%elem_of_cons]%elem_of_cons.
    apply lookups_report in Hin as [[=]|[line [=]]]. done. }
  destruct (truthy (start args)).
  - destruct (strptime (str_of (start args)) _) as [e|t]; simpl.
    { intros [[=]|[[=]|[]%elem_of_nil]%elem_of_cons]%elem_of_cons. }
    destruct (truthy (end_ args)).
    + destruct (strptime (str_of (end_ args)) _) as [e|t']; simpl.
      { intros [[=]|[[=]|[]%elem_of_nil]%elem_of_cons]%elem_of_cons. }
      intros <-%Hreport. destruct (LookupEvents ct _); simpl; [done|].
      by rewrite lookups_lines, printed_lines.
    + intros <-%Hreport. destruct (LookupEvents ct _); simpl; [done|].
      by rewrite lookups_lines, printed_lines.
  - destruct (truthy (end_ args)).
    + destruct (strptime (str_of (end_ args)) _) as [e|t']; simpl.
      { intros [[=]|[[=]|[]%elem_of_nil]%elem_of_cons]%elem_of_cons. }
      intros <-%Hreport. destruct (LookupEvents ct _); simpl; [done|].
      by rewrite lookups_lines, printed_lines.
    + intros <-%Hreport. destruct (LookupEvents ct _); simpl; [done|].
      by rewrite lookups_lines, printed_lines.
Qed.

Lemma QueryLogs_report_witness :
  let args := Sample.args "us-east-1" "50" None None None None None in
  lookups (@QueryLogs Sample.world args).1 = [∅]
  ∧ (@QueryLogs Sample.world args).2 = inr tt
  ∧ printed (@QueryLogs Sample.world args).1
    = ["Log events found: 2"; "event-1"; "event-2"].
Proof.
  apply (@QueryLogs_report Sample.world
           (Sample.args "us-east-1" "50" None None None None None)
           "us-east-1" "us-east-1" ∅); [reflexivity|reflexivity|].
  vm_compute. do 2 apply list_elem_of_further. apply list_elem_of_here.
Defined.

(** ** [CreateVolumeCopy]: exceptions and output *)

(** X15 — a [--tags] text that [json.loads] refuses ends the run with the
    exception of [json.loads], after the first line and before any call of
    the library. *)
Theorem CreateVolumeCopy_bad_tags `{W : External} (args : Namespace) (e : exn) :
  truthy (tags args) = true →
  json_loads (str_of (tags args)) = inl e →
  CreateVolumeCopy args = ([Print "Starting volume copy..."], inl e).
Proof.
  intros Ht Hjson. unfold CreateVolumeCopy.
  rewrite bind_print, Ht, bind_builtin, Hjson. done.
Qed.

Lemma CreateVolumeCopy_bad_tags_witness :
  @CreateVolumeCopy Sample.world
    (Sample.args "us-east-1" "50" (Some "case=42") None None None None)
  = ([Print "Starting volume copy..."], inl "JSONDecodeError").
Proof.
  apply (@CreateVolumeCopy_bad_tags Sample.world
           (Sample.args "us-east-1" "50" (Some "case=42") None None None None)
           "JSONDecodeError"); reflexivity.
Defined.

(** X16 — a run that called the library called it once, with the zone, the
    ids and the profiles as they were given.  When the library raises, the
    run ends with its exception and [Done!] is not printed; when it
    returns, the run prints the id and the name of the copy and returns. *)
Theorem CreateVolumeCopy_outcome `{W : External} (args : Namespace)
    (kw : copy_kwargs) :
  CallCreateVolumeCopy kw ∈ (CreateVolumeCopy args).1 →
  copies (CreateVolumeCopy args).1 = [kw]
  ∧ (copy_zone kw, copy_dst_zone kw, copy_instance_id kw, copy_volume_id kw,
     copy_src_profile kw, copy_dst_profile kw)
    = (zone args, dst_zone args, instance_id args, volume_id args,
       src_profile args, dst_profile args)
  ∧ match forensics_CreateVolumeCopy kw with
    | inl e =>
        (CreateVolumeCopy args).2 = inl e
        ∧ printed (CreateVolumeCopy args).1 = ["Starting volume copy..."]
    | inr volume_copy =>
        (CreateVolumeCopy args).2 = inr tt
        ∧ printed (CreateVolumeCopy args).1
          = ["Starting volume copy...";
             "Done! Volume " +:+ ebs_volume_id volume_copy
             +:+ " successfully created. You will find it in "
             +:+ "your AWS account under the name "
             +:+ ebs_name volume_copy +:+ "."]
    end.
Proof.
  unfold CreateVolumeCopy. rewrite bind_print.
  assert (Hrun : ∀ parsed : option json,
    let built := {| copy_zone := zone args;
                    copy_dst_zone := dst_zone args;
                    copy_instance_id := instance_id args;
                    copy_volume_id := volume_id args;
                    copy_src_profile := src_profile args;
                    copy_dst_profile := dst_profile args;
                    copy_tags := parsed |} in
    bind (call (CallCreateVolumeCopy built) (forensics_CreateVolumeCopy built))
      (fun volume_copy =>
         print ("Done! Volume " +:+ ebs_volume_id volume_copy
                +:+ " successfully created. You will find it in "
                +:+ "your AWS account under the name "
                +:+ ebs_name volume_copy +:+ "."))
    = match forensics_CreateVolumeCopy built with
      | inl e => ([CallCreateVolumeCopy built], inl e)
      | inr volume_copy =>
          ([CallCreateVolumeCopy built;
            Print ("Done! Volume " +:+ ebs_volume_id volume_copy
                   +:+ " successfully created. You will find it in "
                   +:+ "your AWS account under the name "
                   +:+ ebs_name volume_copy +:+ ".")], inr tt)
      end).
  { intros parsed built. rewrite bind_call.
    by destruct (forensics_CreateVolumeCopy built). }
  destruct (truthy (tags args)).
  - rewrite bind_builtin.
    destruct (json_loads (str_of (tags args))) as [e|parsed].
    { simpl. intros [[=]|[]%elem_of_nil]%elem_of_cons. }
    cbv beta iota. rewrite bind_ret. cbv zeta. rewrite (Hrun (Some parsed)). cbv zeta.
    destruct (forensics_CreateVolumeCopy _) as [e|volume_copy] eqn:Hcopy; simpl;
      rewrite ?elem_of_cons, ?elem_of_nil; intros Hin;
      repeat destruct Hin as [Hin|Hin]; try done;
      injection Hin as ->; by rewrite Hcopy.
  - rewrite bind_ret. cbv zeta. rewrite (Hrun None). cbv zeta.
    destruct (forensics_CreateVolumeCopy _) as [e|volume_copy] eqn:Hcopy; simpl;
      rewrite ?elem_of_cons, ?elem_of_nil; intros Hin;
      repeat destruct Hin as [Hin|Hin]; try done;
      injection Hin as ->; by rewrite Hcopy.
Qed.

Lemma CreateVolumeCopy_outcome_witness :
  let args := Sample.args "eu-west-1" "50" (Some "{}") None None None None in
  let kw := {| copy_zone := "eu-west-1";
               copy_dst_zone := None;
               copy_instance_id := None;
               copy_volume_id := Some "vol-0";
               copy_src_profile := None;
               copy_dst_profile := None;
               copy_tags := Some (JDict []) |} in
  copies (@CreateVolumeCopy Sample.world args).1 = [kw]
  ∧ ("eu-west-1", None, None, Some "vol-0", None, None)
    = (zone args, dst_zone args, instance_id args, volume_id args,
       src_profile args, dst_profile args)
  ∧ (@CreateVolumeCopy Sample.world args).2 = inl "RuntimeError"
  ∧ printed (@CreateVolumeCopy Sample.world args).1 = ["Starting volume copy..."].
Proof.
  apply (@CreateVolumeCopy_outcome Sample.world
           (Sample.args "eu-west-1" "50" (Some "{}") None None None None)
           {| copy_zone := "eu-west-1";
              copy_dst_zone := None;
              copy_instance_id := None;
              copy_volume_id := Some "vol-0";
              copy_src_profile := None;
              copy_dst_profile := None;
              copy_tags := Some (JDict []) |}).
  vm_compute. apply list_elem_of_further, list_elem_of_here.
Defined.

(** ** The handlers that read the account *)

(** X17 — when the account cannot be opened, or the listing (for
    [QueryLogs], the trail) raises, the run ends with that exception and
    has printed nothing, not even the header. *)
Theorem readers_fail_silently `{W : External} (args : Namespace) (e : exn) :
  (AWSAccount (zone args) = inl e →
   ListInstances args = ([CallAWSAccount (zone args)], inl e)
   ∧ ListVolumes args = ([CallAWSAccount (zone args)], inl e)
   ∧ ListImages args = ([CallAWSAccount (zone args)], inl e)
   ∧ QueryLogs args = ([CallAWSAccount (zone args)], inl e))
  ∧ (∀ account, AWSAccount (zone args) = inr account →
       (AWSAccount_ListInstances account = inl e →
        ListInstances args
        = ([CallAWSAccount (zone args); CallListInstances], inl e))
       ∧ (AWSAccount_ListVolumes account = inl e →
          ListVolumes args
          = ([CallAWSAccount (zone args); CallListVolumes], inl e))
       ∧ (AWSAccount_ListImages account
            [{| filter_Name := "name"; filter_Values := [filter args] |}]
          = inl e →
          (ListImages args).2 = inl e ∧ printed (ListImages args).1 = [])
       ∧ (AWSCloudTrail account = inl e →
          QueryLogs args
          = ([CallAWSAccount (zone args); CallAWSCloudTrail], inl e))).
Proof.
  split.
  - intros Hacc. unfold ListInstances, ListVolumes, ListImages, QueryLogs.
    by rewrite !bind_call, Hacc.
  - intros account Hacc. split; [|split; [|split]]; intros Hfail.
    + unfold ListInstances. by rewrite bind_call, Hacc, bind_call, Hfail.
    + unfold ListVolumes. by rewrite bind_call, Hacc, bind_call, Hfail.
    + unfold ListImages. rewrite bind_call, Hacc. cbv zeta.
      by rewrite bind_call, Hfail.
    + unfold QueryLogs. by rewrite bind_call, Hacc, bind_call, Hfail.
Qed.

Lemma readers_fail_silently_witness :
  let nowhere := Sample.args "" "50" None None (Some "yesterday") None None in
  let denied := Sample.args "ap-south-1" "50" None None None None None in
  @QueryLogs Sample.world nowhere = ([CallAWSAccount ""], inl "NoRegionError")
  ∧ @ListInstances Sample.world denied
    = ([CallAWSAccount "ap-south-1"; CallListInstances], inl "AccessDenied").
Proof.
  split.
  - apply (proj1 (@readers_fail_silently Sample.world
                    (Sample.args "" "50" None None (Some "yesterday") None None)
                    "NoRegionError")).
    reflexivity.
  - apply (proj2 (@readers_fail_silently Sample.world
                    (Sample.args "ap-south-1" "50" None None None None None)
                    "AccessDenied") "ap-south-1"); reflexivity.
Defined.

Section Events.

Context `{W : External}.
Variable P : event → Prop.

Lemma bind_events {A B} (m : M A) (f : A → M B) :
  Forall P m.1 → (∀ a, Forall P (f a).1) → Forall P (bind m f).1.
Proof.
  destruct m as [t [e|a]]; simpl; [done|]. intros Ht Hf.
  specialize (Hf a). destruct (f a) as [t' r]. simpl in *.
  by apply Forall_app.
Qed.

Lemma for_each_events {A} (l : list A) (body : A → M unit) :
  (∀ x, Forall P (body x).1) → Forall P (for_each l body).1.
Proof.
  intros Hbody. induction l as [|x l IH]; simpl; [constructor|].
  by apply bind_events.
Qed.

Lemma call_events {A} (e : event) (answer : exn + A) :
  P e → Forall P (call e answer).1.
Proof. intros He. by repeat constructor. Qed.

Lemma print_events (line : string) : P (Print line) → Forall P (print line).1.
Proof. intros He. by repeat constructor. Qed.

End Events.

(** X18 — the four handlers that read the account never call the
    forensics module, whatever the library answers: they create no volume
    copy and start no machine. *)
Theorem readers_call_no_forensics `{W : External} (args : Namespace) :
  Forall (fun e => is_forensics e = false) (ListInstances args).1
  ∧ Forall (fun e => is_forensics e = false) (ListVolumes args).1
  ∧ Forall (fun e => is_forensics e = false) (ListImages args).1
  ∧ Forall (fun e => is_forensics e = false) (QueryLogs args).1.
Proof.
  split; [|split; [|split]].
  - unfold ListInstances.
    repeat (apply bind_events; [by (apply call_events || apply print_events)|];
            intros ?).
    apply for_each_events. intros [instance obj].
    apply bind_events; [by apply call_events|]. intros boot. by apply print_events.
  - unfold ListVolumes.
    repeat (apply bind_events; [by (apply call_events || apply print_events)|];
            intros ?).
    apply for_each_events. intros [volume obj]. by apply print_events.
  - unfold ListImages.
    repeat (apply bind_events; [by (apply call_events || apply print_events)|];
            intros ?).
    apply for_each_events. intros image.
    repeat (apply bind_events; [constructor|]; intros ?). by apply print_events.
  - unfold QueryLogs.
    repeat (apply bind_events; [by (apply call_events || apply print_events)|];
            intros ?).
    apply bind_events.
    { destruct (truthy (start args)); [|constructor].
      apply bind_events; [constructor|]. intros t. constructor. }
    intros params. apply bind_events.
    { destruct (truthy (end_ args)); [|constructor].
      apply bind_events; [constructor|]. intros t. constructor. }
    intros params'. apply bind_events; [by apply call_events|]. intros result.
    destruct (bool_list result); [|constructor].
    apply bind_events; [by apply print_events|]. intros _.
    apply for_each_events. intros event. by apply print_events.
Qed.
